(** * CPU metric retrieval engine (server/src/aws, the CloudWatch module)

    A shallow embedding of the CloudWatch retrieval path of the dashboard
    server: range chunking, retry with exponential backoff, batched chunk
    fetching, the two resolution fallbacks and the merge / dedup / sort
    pipeline of [getCpuMetrics].

    Conventions of the embedding.
    - A [Date] is its time value, an integer number of milliseconds ([Z]).
      Invalid dates are outside the model, except as elements of a provider
      response, where they are dropped by the range test like a missing
      element.
    - JavaScript numbers that are not integers by construction
      ([rangeSeconds], [deltaSec], the argument of [Math.round]) are exact
      rationals ([Q]).  The code compares such numbers with integer
      thresholds only (1440, 0, 240, the midpoint of [Math.round]); they are
      quotients of time values by 1000 or by a period, and for time values
      of ECMAScript dates double arithmetic decides these comparisons as
      exact arithmetic does.
    - CPU values are never inspected by the code; their type is a parameter.
    - Effects are threaded through an explicit world: the state of the
      provider and the history of calls and delays.  A delay is recorded,
      not waited for.
    - The fetches of one batch run concurrently in the code.  Here the
      provider answers them one after the other, in the order in which
      [batch.map] starts them, and the instant at which each fetch settles
      is a parameter ([settledAt]), so that every order of completion is
      covered.
    - The two unbounded constructs, the splitting loop and the recursion of
      the retry, take a bound ([fuel], [depth]); running out of it is the
      outcome [Pending], and the bounds that suffice are proved to. *)

From Stdlib Require Import ZArith QArith Qround Qminmax Lia.
From stdpp Require Import base gmap list strings sorting.

Local Close Scope Q_scope.
Local Open Scope Z_scope.
#[local] Set Warnings "-clear-no-such-hyp".

(** ** Constants *)

(** CloudWatch maximum datapoints per query *)
Definition MAX_DATAPOINTS : Z := 1440.

(** Maximum concurrent requests to avoid throttling *)
Definition MAX_CONCURRENT_REQUESTS : nat := 5.

(** Maximum number of retries for failed requests *)
Definition MAX_RETRIES : Z := 3.

(** Base delay for exponential backoff (ms) *)
Definition BASE_BACKOFF_MS : Z := 200.

(** CloudWatch period in seconds for each interval key *)
Definition PERIOD_MAP (interval : string) : option Z :=
  if String.eqb interval "1m" then Some 60
  else if String.eqb interval "5m" then Some 300
  else if String.eqb interval "15m" then Some 900
  else if String.eqb interval "1h" then Some 3600
  else None.

(** ** Range planning *)

(** [{ start: Date; end: Date }] *)
Record Chunk := mkChunk { c_start : Z; c_end : Z }.

#[global] Instance Chunk_eq_dec : EqDecision Chunk.
Proof. solve_decision. Defined.

(** [Math.ceil(rangeSeconds / periodSeconds)] *)
Definition estimatedDatapoints (rangeMs periodSeconds : Z) : Z :=
  let rangeSeconds : Q := (inject_Z rangeMs / 1000)%Q in
  Qceiling (rangeSeconds / inject_Z periodSeconds)%Q.

(** [calculateQueryChunks]; [periodSeconds] is not zero (the callers pass an
    entry of [PERIOD_MAP] or 300). *)
Definition calculateQueryChunks (rangeMs periodSeconds : Z) : Z :=
  if estimatedDatapoints rangeMs periodSeconds <=? MAX_DATAPOINTS then 1
  else
    Qceiling (inject_Z (estimatedDatapoints rangeMs periodSeconds)
              / inject_Z MAX_DATAPOINTS)%Q.

(** The [while (currentStart < endTime)] loop of [fetchMetricsWithPeriod].
    One unit of [fuel] pays for one evaluation of the loop condition; [None]
    means the fuel ran out before the loop was left. *)
Fixpoint splitLoop (fuel : nat) (chunkDurationMs endTime currentStart : Z)
    (chunks : list Chunk) : option (list Chunk) :=
  match fuel with
  | O => None
  | S fuel' =>
      if currentStart <? endTime then
        let chunkEndTime := Z.min (currentStart + chunkDurationMs) endTime in
        let chunks' :=
          if chunkEndTime >? currentStart
          then chunks ++ [mkChunk currentStart chunkEndTime]
          else chunks in
        if chunkEndTime >=? endTime then Some chunks'
        else splitLoop fuel' chunkDurationMs endTime chunkEndTime chunks'
      else Some chunks
  end.

(** The statements after the loop: an empty list becomes the whole range, and
    a last chunk that stops short is stretched to [end]. *)
Definition closeChunks (start end_ : Z) (chunks : list Chunk) : list Chunk :=
  match last chunks with
  | None => [mkChunk start end_]
  | Some lastChunk =>
      if c_end lastChunk <? end_
      then <[ (length chunks - 1)%nat := mkChunk (c_start lastChunk) end_ ]> chunks
      else chunks
  end.

(** The [else] branch of [fetchMetricsWithPeriod] up to the fetch. *)
Definition buildChunks (fuel : nat) (start end_ period : Z) : option (list Chunk) :=
  let chunkDurationMs := MAX_DATAPOINTS * period * 1000 in
  closeChunks start end_ <$> splitLoop fuel chunkDurationMs end_ start [].

(** The chunks [fetchMetricsWithPeriod] queries: the range itself when
    [numChunks === 1], the built list otherwise. *)
Definition queryPlan (fuel : nat) (start end_ period rangeMs : Z) : option (list Chunk) :=
  let numChunks := calculateQueryChunks rangeMs period in
  if numChunks =? 1 then Some [mkChunk start end_]
  else buildChunks fuel start end_ period.

(** Loop iterations that suffice for a range and a positive chunk length. *)
Definition splitBound (chunkDurationMs endTime currentStart : Z) : nat :=
  S (Z.to_nat ((endTime - currentStart) / chunkDurationMs)).

(** *** Properties of a plan *)

(** [Steps d a b cs]: [cs] walks from [a] to [b] in chunks of length [d],
    the last one cut at [b]. *)
Inductive Steps (d : Z) : Z -> Z -> list Chunk -> Prop :=
| Steps_last a b : a < b -> b - a <= d -> Steps d a b [mkChunk a b]
| Steps_next a b cs :
    a + d < b -> Steps d (a + d) b cs -> Steps d a b (mkChunk a (a + d) :: cs).

(** [Tiles a b cs]: [cs] is a non-empty sequence of non-empty chunks, the
    first starting at [a], each starting where its predecessor ends, the last
    ending at [b]. *)
Inductive Tiles : Z -> Z -> list Chunk -> Prop :=
| Tiles_one a b : a < b -> Tiles a b [mkChunk a b]
| Tiles_cons a m b cs : a < m -> Tiles m b cs -> Tiles a b (mkChunk a m :: cs).

(** Estimated datapoints of one chunk, [duration / period] in seconds. *)
Definition chunkDatapoints (period : Z) (c : Chunk) : Q :=
  (inject_Z (c_end c - c_start c) / 1000 / inject_Z period)%Q.

Definition covers (t : Z) (c : Chunk) : Prop := c_start c <= t <= c_end c.

(** ** The metric source *)

(** An error value thrown by the provider client: an [Error] object,
    possibly carrying a [statusCode]. *)
Record JsError := mkError {
  err_name : string;
  err_message : string;
  err_statusCode : option Z
}.

(** [String(error)], that is [Error.prototype.toString]. *)
Definition String_of (error : JsError) : string :=
  if String.eqb (err_name error) "" then err_message error
  else if String.eqb (err_message error) "" then err_name error
  else err_name error +:+ ": " +:+ err_message error.

(** [haystack.includes(needle)] *)
Fixpoint includes (haystack needle : string) : bool :=
  String.prefix needle haystack ||
  match haystack with
  | EmptyString => false
  | String _ rest => includes rest needle
  end.

(** The throttling test of the [catch] block of [fetchChunkWithRetry]. *)
Definition isThrottling (error : JsError) : bool :=
  bool_decide (err_statusCode error = Some 429)
  || String.eqb (err_name error) "ThrottlingException"
  || includes (String_of error) "throttl"
  || includes (String_of error) "rate".

(** The fields of a [GetMetricDataCommand] that vary; namespace, metric
    name, statistic and query id are constants of the code. *)
Record GetMetricDataCommand := mkCommand {
  InstanceId : string;
  StartTime : Z;
  EndTime : Z;
  Period : Z
}.

(** What the engine can be observed to do: a provider call, a delay. *)
Inductive Event :=
| Sent (command : GetMetricDataCommand)
| Slept (ms : Z).

(** The calls recorded in a history, and the delays. *)
Definition sentCommands (h : list Event) : list GetMetricDataCommand :=
  omap (fun ev => match ev with Sent command => Some command | Slept _ => None end) h.

Definition delays (h : list Event) : list Z :=
  omap (fun ev => match ev with Slept ms => Some ms | Sent _ => None end) h.

(** What [n] throttled attempts leave in the history, the first of them made
    with the given [retryCount]: the call, then the backoff delay. *)
Fixpoint failedAttempts (command : GetMetricDataCommand) (n : nat) (retryCount : Z)
  : list Event :=
  match n with
  | O => []
  | S n' =>
      Sent command :: Slept (200 * 2 ^ retryCount)
        :: failedAttempts command n' (retryCount + 1)
  end.

(** The state of a promise; [Pending] is a promise that never settles. *)
Inductive Outcome (A : Type) :=
| Fulfilled (a : A)
| Rejected (reason : JsError)
| Pending.
Arguments Fulfilled {A} a.
Arguments Rejected {A} reason.
Arguments Pending {A}.

(** JavaScript's [Math.round]: the nearest integer, ties towards +infinity. *)
Definition Math_round (x : Q) : Z := Qfloor (x + (1 # 2))%Q.

(** The key of the [seen] set: the timestamp rounded to the nearest second. *)
Definition roundedTs (timestamp : Z) : Z :=
  Math_round (inject_Z timestamp / 1000)%Q * 1000.

(** ** Provider data *)

(** [MetricDataResult]: both arrays are optional, and so is each element
    (a missing timestamp also stands for an invalid date). *)
Record MetricDataResult (Val : Type) := mkResult {
  Timestamps : option (list (option Z));
  Values : option (list (option Val))
}.
Arguments mkResult {Val} Timestamps Values.
Arguments Timestamps {Val} _.
Arguments Values {Val} _.

(** The response of [client.send]. *)
Record GetMetricDataOutput (Val : Type) := mkOutput {
  MetricDataResults : option (list (MetricDataResult Val))
}.
Arguments mkOutput {Val} MetricDataResults.
Arguments MetricDataResults {Val} _.

(** [{ timestamp: number; cpu: number }] *)
Record DataPoint (Val : Type) := mkPoint { dp_timestamp : Z; dp_cpu : Val }.
Arguments mkPoint {Val} dp_timestamp dp_cpu.
Arguments dp_timestamp {Val} _.
Arguments dp_cpu {Val} _.

Record CpuDataPoint (Val : Type) := mkCpuDataPoint {
  time : string;
  cpu : Val;
  timestamp : Z
}.
Arguments mkCpuDataPoint {Val} time cpu timestamp.
Arguments time {Val} _.
Arguments cpu {Val} _.
Arguments timestamp {Val} _.

Record MetricResponse (Val : Type) := mkResponse {
  data : list (CpuDataPoint Val);
  adjustedInterval : option string
}.
Arguments mkResponse {Val} data adjustedInterval.
Arguments data {Val} _.
Arguments adjustedInterval {Val} _.

(** ** Merging the fetched series *)

Section Series.

Context {Val : Type}.

(** The test of the [some] callback that computes [hasData]. *)
Definition resultHasData (result : MetricDataResult Val) : bool :=
  (0 <? length (default [] (Values result)))%nat
  || (0 <? length (default [] (Timestamps result)))%nat.

Definition hasData (metricResults : list (MetricDataResult Val)) : bool :=
  existsb resultHasData metricResults.

(** The body of the inner collecting loop for one index: the sample is
    pushed when timestamp and value are present and the timestamp lies
    within one second of the requested range. *)
Definition keepSample (start end_ : Z) (sample : option Z * option Val)
  : option (DataPoint Val) :=
  match sample with
  | (Some ts, Some value) =>
      if (start - 1000 <=? ts) && (ts <=? end_ + 1000)
      then Some (mkPoint ts value)
      else None
  | _ => None
  end.

(** The inner loop over one result: indices below the shorter length.
    [allTimestamps] and [allValues] are pushed together, so they are kept
    as one list of points. *)
Definition collectResult (start end_ : Z) (result : MetricDataResult Val)
  : list (DataPoint Val) :=
  let timestamps := default [] (Timestamps result) in
  let values := default [] (Values result) in
  omap (keepSample start end_) (zip timestamps values).

(** [dataPoints]: the samples kept from all results, in fetch order. *)
Definition collect (start end_ : Z) (metricResults : list (MetricDataResult Val))
  : list (DataPoint Val) :=
  metricResults ≫= collectResult start end_.

(** The second a point falls in: its key in the [seen] set. *)
Definition secondOf (dp : DataPoint Val) : Z := roundedTs (dp_timestamp dp).

(** The [filter] callback with its [seen] set: a point is kept when its
    rounded timestamp was not seen before. *)
Fixpoint dedupFrom (seen : gset Z) (dataPoints : list (DataPoint Val))
  : list (DataPoint Val) :=
  match dataPoints with
  | [] => []
  | dp :: rest =>
      let roundedTs := secondOf dp in
      if bool_decide (roundedTs ∈ seen) then dedupFrom seen rest
      else dp :: dedupFrom ({[roundedTs]} ∪ seen) rest
  end.

(** [Array.prototype.sort] with [(a, b) => a.timestamp - b.timestamp]: the
    sort is stable, so its result is that of a stable insertion sort. *)
Fixpoint insertPoint (dp : DataPoint Val) (sorted : list (DataPoint Val))
  : list (DataPoint Val) :=
  match sorted with
  | [] => [dp]
  | b :: rest =>
      if dp_timestamp dp - dp_timestamp b <=? 0 then dp :: b :: rest
      else b :: insertPoint dp rest
  end.

Definition sortByTimestamp (dataPoints : list (DataPoint Val)) : list (DataPoint Val) :=
  foldr insertPoint [] dataPoints.

(** The order the comparator asks for, and its strict part. *)
Definition notAfter (a b : DataPoint Val) : Prop := dp_timestamp a <= dp_timestamp b.

Definition before (a b : DataPoint Val) : Prop := dp_timestamp a < dp_timestamp b.

(** [uniqueDataPoints] *)
Definition uniquePoints (start end_ : Z) (metricResults : list (MetricDataResult Val))
  : list (DataPoint Val) :=
  sortByTimestamp (dedupFrom ∅ (collect start end_ metricResults)).

(** The [gaps] array: the positive differences, in seconds, between
    neighbours. *)
Fixpoint gapsOf (points : list (DataPoint Val)) : list Q :=
  match points with
  | a :: (b :: _) as rest =>
      let deltaSec := (inject_Z (dp_timestamp b - dp_timestamp a) / 1000)%Q in
      if negb (Qle_bool deltaSec 0) then deltaSec :: gapsOf rest else gapsOf rest
  | _ => []
  end.

(** [Math.min(...gaps)] for a non-empty array. *)
Definition Math_min (first : Q) (others : list Q) : Q := foldr Qmin first others.

(** The block that infers the effective resolution from the data; the
    result is the new value of [adjustedInterval]. *)
Definition inferResolution (adjustedInterval : option string) (interval : string)
    (uniqueDataPoints : list (DataPoint Val)) : option string :=
  if bool_decide (adjustedInterval = None) && String.eqb interval "1m"
     && (1 <? length uniqueDataPoints)%nat
  then
    match gapsOf uniqueDataPoints with
    | gap :: gaps =>
        let minGap := Math_min gap gaps in
        if Qle_bool 240 minGap then Some "5m"%string else adjustedInterval
    | [] => adjustedInterval
    end
  else adjustedInterval.

(** Whether the assignment of the gap detection is executed. *)
Definition gapDetectionFires (adjustedInterval : option string) (interval : string)
    (uniqueDataPoints : list (DataPoint Val)) : bool :=
  bool_decide (adjustedInterval = None) && String.eqb interval "1m"
  && (1 <? length uniqueDataPoints)%nat
  && match gapsOf uniqueDataPoints with
     | gap :: gaps => Qle_bool 240 (Math_min gap gaps)
     | [] => false
     end.

(** Whether the fallback re-fetch is executed. *)
Definition emptyFallbackFires (metricResults : list (MetricDataResult Val)) (period : Z)
  : bool :=
  negb (hasData metricResults) && (period =? 60).

(** [toLocaleTimeString('en-US', { hour: '2-digit', minute: '2-digit' })] *)
Variable formatTime : Z -> string.

Definition formatPoint (dp : DataPoint Val) : CpuDataPoint Val :=
  mkCpuDataPoint (formatTime (dp_timestamp dp)) (dp_cpu dp) (dp_timestamp dp).

(** Everything [getCpuMetrics] does after the fetches. *)
Definition assemble (start end_ : Z) (interval : string)
    (adjustedInterval : option string) (metricResults : list (MetricDataResult Val))
  : MetricResponse Val :=
  let uniqueDataPoints := uniquePoints start end_ metricResults in
  let adjustedInterval := inferResolution adjustedInterval interval uniqueDataPoints in
  mkResponse (formatPoint <$> uniqueDataPoints) adjustedInterval.

End Series.

(** ** Effects *)

Record World (Src : Type) := mkWorld { provider : Src; history : list Event }.
Arguments mkWorld {Src} provider history.
Arguments provider {Src} _.
Arguments history {Src} _.

Definition M (Src A : Type) : Type := World Src -> Outcome A * World Src.

#[global] Instance M_ret {Src} : MRet (M Src) := fun A a w => (Fulfilled a, w).

#[global] Instance M_bind {Src} : MBind (M Src) := fun A B k m w =>
  match m w with
  | (Fulfilled a, w') => k a w'
  | (Rejected e, w') => (Rejected e, w')
  | (Pending, w') => (Pending, w')
  end.

Definition throw {Src A} (error : JsError) : M Src A := fun w => (Rejected error, w).

Definition pending {Src A} : M Src A := fun w => (Pending, w).

(** [try { body } catch (error) { handler }] *)
Definition tryCatch {Src A} (body : M Src A) (handler : JsError -> M Src A) : M Src A :=
  fun w =>
    match body w with
    | (Rejected e, w') => handler e w'
    | r => r
    end.

(** Appends an event to the history. *)
Definition record {Src} (ev : Event) (w : World Src) : World Src :=
  mkWorld (provider w) (history w ++ [ev]).

(** [await sleep(ms)] *)
Definition sleep {Src} (ms : Z) : M Src unit := fun w => (Fulfilled tt, record (Slept ms) w).

(** *** Promise.all *)

(** The promises of a batch: started in list order, each runs until it
    settles, and a rejection does not stop the others (the code has no
    cancellation).  The provider answers them in list order. *)
Fixpoint runAll {Src A} (promises : list (M Src A)) (w : World Src)
  : list (Outcome A) * World Src :=
  match promises with
  | [] => ([], w)
  | p :: rest =>
      let '(o, w1) := p w in
      let '(os, w2) := runAll rest w1 in
      (o :: os, w2)
  end.

(** The rejection that happens first, if any; of two at the same instant
    the earlier in the list. *)
Fixpoint firstRejection {A} (settled : list (nat * Outcome A)) : option (nat * JsError) :=
  match settled with
  | [] => None
  | (t, Rejected e) :: rest =>
      match firstRejection rest with
      | Some (t', e') => if (t' <? t)%nat then Some (t', e') else Some (t, e)
      | None => Some (t, e)
      end
  | _ :: rest => firstRejection rest
  end.

(** The values of the promises, in list order, when all are fulfilled. *)
Fixpoint fulfilledValues {A} (settled : list (Outcome A)) : option (list A) :=
  match settled with
  | [] => Some []
  | Fulfilled a :: rest => cons a <$> fulfilledValues rest
  | _ :: rest => None
  end.

(** How [Promise.all] settles: rejected with the first rejection, else
    fulfilled with all the values in input order, else pending. *)
Definition settleAll {A} (times : list nat) (settled : list (Outcome A)) : Outcome (list A) :=
  match firstRejection (zip times settled) with
  | Some (_, e) => Rejected e
  | None =>
      match fulfilledValues settled with
      | Some values => Fulfilled values
      | None => Pending
      end
  end.

(** [await Promise.all(promises)]; [times] are the instants at which the
    promises settle, in list order. *)
Definition Promise_all {Src A} (times : list nat) (promises : list (M Src A))
  : M Src (list A) := fun w =>
  let '(settled, w') := runAll promises w in
  (settleAll times settled, w').

(** The values of [i] visited by
    [for (let i = 0; i < n; i += MAX_CONCURRENT_REQUESTS)]. *)
Definition nthBatchStart (k : nat) : nat := (k * MAX_CONCURRENT_REQUESTS)%nat.

Definition batchStarts (n : nat) : list nat :=
  nthBatchStart <$>
    seq 0 (Nat.div (n + MAX_CONCURRENT_REQUESTS - 1) MAX_CONCURRENT_REQUESTS).

(** [array.slice(from, to)] for indices within the array. *)
Definition slice {A} (l : list A) (from to : nat) : list A :=
  take (to - from) (drop from l).

(** ** The engine *)

Section Engine.

Context {Val Src : Type}.

(** [client.send(command)]: rejects or resolves, and moves the provider
    to its next state. *)
Variable send :
  GetMetricDataCommand -> Src -> (JsError + GetMetricDataOutput Val) * Src.

(** The instant at which the fetch of a chunk settles, for [Promise.all]. *)
Variable settledAt : Chunk -> nat.

(** [toLocaleTimeString('en-US', { hour: '2-digit', minute: '2-digit' })] *)
Variable formatTime : Z -> string.

(** [await client.send(command)] *)
Definition clientSend (command : GetMetricDataCommand) : M Src (GetMetricDataOutput Val) :=
  fun w =>
    let '(r, s) := send command (provider w) in
    let w' := mkWorld s (history w ++ [Sent command]) in
    match r with
    | inl error => (Rejected error, w')
    | inr response => (Fulfilled response, w')
    end.

(** [response.MetricDataResults?.[0] ?? { Values: [], Timestamps: [] }] *)
Definition firstResult (response : GetMetricDataOutput Val) : MetricDataResult Val :=
  match MetricDataResults response with
  | Some (result :: _) => result
  | _ => mkResult (Some []) (Some [])
  end.

(** The provider's answers to [n] successive sends of one command. *)
Fixpoint answers (n : nat) (command : GetMetricDataCommand) (s : Src)
  : list (JsError + GetMetricDataOutput Val) * Src :=
  match n with
  | O => ([], s)
  | S n' =>
      let '(r, s1) := send command s in
      let '(rs, s2) := answers n' command s1 in
      (r :: rs, s2)
  end.

(** How a fetch settles on the answer that ends it. *)
Definition settles (r : JsError + GetMetricDataOutput Val)
  : Outcome (MetricDataResult Val) :=
  match r with
  | inl error => Rejected error
  | inr response => Fulfilled (firstResult response)
  end.

(** [fetchChunkWithRetry]; [depth] bounds the nesting of the recursive
    calls, and a call that would nest deeper never settles. *)
Fixpoint fetchChunkWithRetry_from (depth : nat) (instanceId : string)
    (chunkStart chunkEnd period retryCount : Z) : M Src (MetricDataResult Val) :=
  tryCatch
    (response ← clientSend (mkCommand instanceId chunkStart chunkEnd period);
     mret (firstResult response))
    (fun error =>
       if isThrottling error && (retryCount <? MAX_RETRIES) then
         let backoffMs := BASE_BACKOFF_MS * 2 ^ retryCount in
         sleep backoffMs;;
         match depth with
         | S depth' =>
             fetchChunkWithRetry_from depth' instanceId chunkStart chunkEnd period
               (retryCount + 1)
         | O => pending
         end
       else throw error).

(** The call with the default [retryCount = 0]; [MAX_RETRIES] nested calls
    are all the code can make. *)
Definition fetchChunkWithRetry (instanceId : string) (chunkStart chunkEnd period : Z)
  : M Src (MetricDataResult Val) :=
  fetchChunkWithRetry_from (Z.to_nat MAX_RETRIES) instanceId chunkStart chunkEnd period 0.

(** The promises of one batch:
    [batch.map(chunk => fetchChunkWithRetry(instanceId, chunk.start, chunk.end, period))] *)
Definition batchFetches (instanceId : string) (period : Z) (batch : list Chunk)
  : list (M Src (MetricDataResult Val)) :=
  (fun chunk => fetchChunkWithRetry instanceId (c_start chunk) (c_end chunk) period)
    <$> batch.

(** The loop of [fetchChunksConcurrently], for the remaining values of
    [i]. *)
Fixpoint fetchBatches (instanceId : string) (chunks : list Chunk) (period : Z)
    (starts : list nat) (results : list (MetricDataResult Val))
  : M Src (list (MetricDataResult Val)) :=
  match starts with
  | [] => mret results
  | i :: starts' =>
      let batch := slice chunks i (i + MAX_CONCURRENT_REQUESTS) in
      batchResults ←
        Promise_all (settledAt <$> batch) (batchFetches instanceId period batch);
      fetchBatches instanceId chunks period starts' (results ++ batchResults)
  end.

Definition fetchChunksConcurrently (instanceId : string) (chunks : list Chunk) (period : Z)
  : M Src (list (MetricDataResult Val)) :=
  fetchBatches instanceId chunks period (batchStarts (length chunks)) [].

(** [fetchMetricsWithPeriod]; [fuel] is for the splitting loop. *)
Definition fetchMetricsWithPeriod (fuel : nat) (instanceId : string)
    (start end_ period rangeMs : Z) : M Src (list (MetricDataResult Val)) :=
  let numChunks := calculateQueryChunks rangeMs period in
  if numChunks =? 1 then
    result ← fetchChunkWithRetry instanceId start end_ period;
    mret [result]
  else
    match buildChunks fuel start end_ period with
    | Some chunks => fetchChunksConcurrently instanceId chunks period
    | None => pending
    end.

(** [getCpuMetrics] *)
Definition getCpuMetrics (fuel : nat) (instanceId : string) (start end_ : Z)
    (interval : string) : M Src (MetricResponse Val) :=
  let period := default 300 (PERIOD_MAP interval) in
  let rangeMs := end_ - start in
  metricResults ← fetchMetricsWithPeriod fuel instanceId start end_ period rangeMs;
  if emptyFallbackFires metricResults period then
    metricResults ← fetchMetricsWithPeriod fuel instanceId start end_ 300 rangeMs;
    mret (assemble formatTime start end_ interval (Some "5m"%string) metricResults)
  else
    mret (assemble formatTime start end_ interval None metricResults).

(** The two courses of a query, in the words of the specification: the
    plan is fetched once; or it is fetched at 60 s and then, once more and
    for the same range, at 300 s. *)
Definition fetchedOnce (fuel : nat) (instanceId : string) (start end_ : Z)
    (interval : string) : M Src (MetricResponse Val) :=
  metricResults ←
    fetchMetricsWithPeriod fuel instanceId start end_ (default 300 (PERIOD_MAP interval))
      (end_ - start);
  mret (assemble formatTime start end_ interval None metricResults).

Definition fetchedTwice (fuel : nat) (instanceId : string) (start end_ : Z)
    (interval : string) : M Src (MetricResponse Val) :=
  fetchMetricsWithPeriod fuel instanceId start end_ 60 (end_ - start);;
  metricResults ← fetchMetricsWithPeriod fuel instanceId start end_ 300 (end_ - start);
  mret (assemble formatTime start end_ interval (Some "5m"%string) metricResults).

End Engine.

(** ** Providers used in the examples *)

(** A provider that plays a script, one answer per call whatever the
    command, and answers with no results once the script is over. *)
Definition scripted (command : GetMetricDataCommand)
    (script : list (JsError + GetMetricDataOutput Q))
  : (JsError + GetMetricDataOutput Q) * list (JsError + GetMetricDataOutput Q) :=
  match script with
  | r :: rest => (r, rest)
  | [] => (inr (mkOutput None), [])
  end.

(** A provider without state that answers by the period asked for. *)
Definition byPeriod (at60 others : GetMetricDataOutput Q) (command : GetMetricDataCommand)
    (s : unit) : (JsError + GetMetricDataOutput Q) * unit :=
  (inr (if Period command =? 60 then at60 else others), tt).

Definition throttled : JsError :=
  mkError "ThrottlingException" "Rate exceeded" (Some 429).

Definition invalidInstance : JsError := mkError "Error" "Invalid instance ID" None.

(** One result holding the given samples. *)
Definition samples (l : list (Z * Q)) : GetMetricDataOutput Q :=
  mkOutput (Some [mkResult (Some (Some <$> l.*1)) (Some (Some <$> l.*2))]).

Definition noSettleOrder (chunk : Chunk) : nat := 0.

Definition noLabel (ts : Z) : string := "".

(** ** What the properties of the calls and of the series speak of *)

(** The command that queries a chunk. *)
Definition commandOf (instanceId : string) (period : Z) (chunk : Chunk)
  : GetMetricDataCommand :=
  mkCommand instanceId (c_start chunk) (c_end chunk) period.

(** What a call of a fetch of the plan looks like. *)
Definition plannedCall (instanceId : string) (start end_ period : Z)
    (command : GetMetricDataCommand) : Prop :=
  InstanceId command = instanceId
  /\ Period command = period
  /\ (chunkDatapoints period (mkChunk (StartTime command) (EndTime command)) <= 1440)%Q
  /\ (start < end_ ->
      start <= StartTime command /\ StartTime command < EndTime command
      /\ EndTime command <= end_).

(** The differences between neighbours, in milliseconds. *)
Fixpoint deltas {Val : Type} (l : list (DataPoint Val)) : list Z :=
  match l with
  | a :: (b :: _) as rest => (dp_timestamp b - dp_timestamp a) :: deltas rest
  | _ => []
  end.

(** One result that holds the given points as samples. *)
Definition asResult {Val : Type} (l : list (DataPoint Val)) : MetricDataResult Val :=
  mkResult (Some ((fun dp => Some (dp_timestamp dp)) <$> l))
           (Some ((fun dp => Some (dp_cpu dp)) <$> l)).

(** ** The route GET /api/metrics/cpu (server/src/routes/metrics.ts)

    The handler up to the point where it resolves the instance: the checks
    of the query parameters, the choice of the range and the retention
    rules.  A query parameter is a string or absent; a [Date] is its time
    value, or nothing when it is invalid; the readings of [Date.now()] are
    arguments. *)

Definition TIME_PERIODS : list string := ["1h"; "24h"; "7d"]%string.

Definition INTERVALS : list string := ["1m"; "5m"; "15m"; "1h"]%string.

(** CloudWatch retention: 1-minute resolution data retained for 15 days *)
Definition RETENTION_1M_MS : Z := 15 * 24 * 60 * 60 * 1000.

(** CloudWatch retention: 1-hour (and longer) resolution data retained for
    455 days *)
Definition RETENTION_1H_MS : Z := 455 * 24 * 60 * 60 * 1000.

(** The [RANGE_MS] table of the handler. *)
Definition RANGE_MS (timePeriod : string) : option Z :=
  if String.eqb timePeriod "1h" then Some (60 * 60 * 1000)
  else if String.eqb timePeriod "24h" then Some (24 * 60 * 60 * 1000)
  else if String.eqb timePeriod "7d" then Some (7 * 24 * 60 * 60 * 1000)
  else None.

(** [new Date(ms).getTime()]: the time value, or nothing ([NaN]) for an
    invalid date, which is what a value beyond 8.64e15 ms gives. *)
Definition newDate (ms : Z) : option Z :=
  if Z.abs ms <=? 8640000000000000 then Some ms else None.

(** [a < b] on time values, false when [a] is [NaN]. *)
Definition timeBefore (a : option Z) (b : Z) : bool :=
  match a with
  | Some t => t <? b
  | None => false
  end.

(** A string in a condition: present and not empty. *)
Definition truthy (s : option string) : bool :=
  match s with
  | Some s => negb (String.eqb s "")
  | None => false
  end.

(** What the handler has done when it reaches the resolution of the
    instance: answered 400 with an error, been left by the [RangeError] that
    [toISOString] throws on an invalid date, or fixed what to ask for. *)
Inductive Prepared :=
| BadRequest (error : string)
| Thrown
| Proceed (identifier : string) (start end_ : option Z) (interval : string)
    (warning : option string) (requestedStartMs : option Z).

Section CpuRoute.

(** [String.prototype.trim], [parseInt(s, 10)] ([None] is [NaN]; otherwise
    the integer read, which is exact below 2^53) and
    [toISOString().slice(0, 10)] of a valid date. *)
Variable trim : string -> string.
Variable parseInt : string -> option Z.
Variable isoDate : Z -> string.

Definition tooOld (start : Z) : string :=
  ("Requested date was too old. Showing data from " +:+ isoDate start +:+ " instead.")%string.

(** The retention rules of the handler: the clamp of [start], with its
    warning, and the forced interval. *)
Definition applyRetention (nowMs : Z) (identifier : string) (start end_ : option Z)
    (interval : string) (requestedStartMs : option Z) : Prepared :=
  let oldestAllowedStart := nowMs - RETENTION_1H_MS in
  let clamped :=
    if timeBefore start oldestAllowedStart
    then (fun t => (Some t, Some (tooOld t))) <$> newDate oldestAllowedStart
    else Some (start, None) in
  match clamped with
  | Some (start, warning) =>
      let interval :=
        if timeBefore start (nowMs - RETENTION_1M_MS) && String.eqb interval "1m"
        then "1h"%string else interval in
      Proceed identifier start end_ interval warning requestedStartMs
  | None => Thrown
  end.

(** The handler of GET /cpu up to the resolution of the instance.
    [nowAtPreset] and [nowMs] are the two readings of [Date.now()], of which
    a custom range takes only the second. *)
Definition prepareCpuQuery (nowAtPreset nowMs : Z)
    (instanceIdParam timePeriod startTimeParam endTimeParam intervalParam : option string)
  : Prepared :=
  let identifier := trim <$> instanceIdParam in
  let interval := if truthy intervalParam then default "" intervalParam else "5m"%string in
  match identifier with
  | Some identifier =>
    if String.eqb identifier "" then BadRequest "Missing query parameter: instanceId"
    else if negb (bool_decide (interval ∈ INTERVALS)) then
      BadRequest "Invalid interval. Use one of: 1m, 5m, 15m, 1h"
    else if truthy startTimeParam && truthy endTimeParam then
      match parseInt (default "" startTimeParam), parseInt (default "" endTimeParam) with
      | Some startMs, Some endMs =>
          if startMs >=? endMs then
            BadRequest
              "Invalid startTime/endTime: must be valid timestamps in ms, startTime < endTime"
          else
            applyRetention nowMs identifier (newDate startMs) (newDate endMs) interval
              (Some startMs)
      | _, _ =>
          BadRequest
            "Invalid startTime/endTime: must be valid timestamps in ms, startTime < endTime"
      end
    else if truthy timePeriod then
      if negb (bool_decide (default "" timePeriod ∈ TIME_PERIODS)) then
        BadRequest "Invalid timePeriod. Use one of: 1h, 24h, 7d"
      else
        let rangeMs := default (24 * 60 * 60 * 1000) (RANGE_MS (default "" timePeriod)) in
        let end_ := newDate (nowAtPreset - 5 * 60 * 1000) in
        let start := end_ ≫= fun t => newDate (t - rangeMs) in
        applyRetention nowMs identifier start end_ interval None
    else
      BadRequest
        "Must provide either timePeriod (preset) or both startTime and endTime (custom range)"
  | None => BadRequest "Missing query parameter: instanceId"
  end.

End CpuRoute.

(** ** Library functions used in the examples of the route *)

(** White space of the ASCII range. *)
Definition isSpace (c : Ascii.ascii) : bool :=
  let n := Z.of_nat (Ascii.nat_of_ascii c) in (n =? 32) || ((9 <=? n) && (n <=? 13)).

Fixpoint trimStart (s : string) : string :=
  match s with
  | String c rest => if isSpace c then trimStart rest else s
  | EmptyString => EmptyString
  end.

Fixpoint trimEnd (s : string) : string :=
  match s with
  | String c rest =>
      match trimEnd rest with
      | EmptyString => if isSpace c then EmptyString else String c EmptyString
      | t => String c t
      end
  | EmptyString => EmptyString
  end.

(** [String.prototype.trim] on text of the ASCII range. *)
Definition asciiTrim (s : string) : string := trimEnd (trimStart s).

Definition digitOf (c : Ascii.ascii) : option Z :=
  let n := Z.of_nat (Ascii.nat_of_ascii c) in
  if (48 <=? n) && (n <=? 57) then Some (n - 48) else None.

Fixpoint readDigits (acc : option Z) (s : string) : option Z :=
  match s with
  | String c rest =>
      match digitOf c with
      | Some d => readDigits (Some (10 * default 0 acc + d)) rest
      | None => acc
      end
  | EmptyString => acc
  end.

(** [parseInt(s, 10)]: white space, a sign, then the digits up to the first
    other character; nothing ([NaN]) without a digit. *)
Definition decimalParseInt (s : string) : option Z :=
  match trimStart s with
  | String c rest =>
      let n := Z.of_nat (Ascii.nat_of_ascii c) in
      if n =? 45 then Z.opp <$> readDigits None rest
      else if n =? 43 then readDigits None rest
      else readDigits None (String c rest)
  | EmptyString => None
  end.

Definition digitChar (d : Z) : Ascii.ascii := Ascii.ascii_of_nat (48 + Z.to_nat d).

Definition pad2 (n : Z) : string :=
  String (digitChar (n / 10 mod 10)) (String (digitChar (n mod 10)) EmptyString).

(** [toISOString().slice(0, 10)] for the years 0000 to 9999: the day of the
    proleptic Gregorian calendar, in UTC. *)
Definition isoDay (ms : Z) : string :=
  let z := ms / 86400000 + 719468 in
  let era := z / 146097 in
  let doe := z - era * 146097 in
  let yoe := (doe - doe / 1460 + doe / 36524 - doe / 146096) / 365 in
  let doy := doe - (365 * yoe + yoe / 4 - yoe / 100) in
  let mp := (5 * doy + 2) / 153 in
  let d := doy - (153 * mp + 2) / 5 + 1 in
  let m := if mp <? 10 then mp + 3 else mp - 9 in
  let y := yoe + era * 400 + (if m <=? 2 then 1 else 0) in
  (pad2 (y / 100) +:+ pad2 y +:+ "-" +:+ pad2 m +:+ "-" +:+ pad2 d)%string.

(** * Properties *)

(** ** Arithmetic of the estimate *)

Lemma Qceiling_le_Z (x : Q) (n : Z) : Qceiling x <= n <-> (x <= inject_Z n)%Q.
Proof.
  split; intros H.
  - eapply Qle_trans; [apply Qle_ceiling|]. rewrite <- Zle_Qle. exact H.
  - rewrite <- (Qceiling_Z n). apply Qceiling_resp_le. exact H.
Qed.

Lemma seconds_per_period_le (r p n : Z) :
  0 < p -> ((inject_Z r / 1000 / inject_Z p <= inject_Z n)%Q <-> r <= n * p * 1000).
Proof.
  intros Hp. destruct p as [|pp|pp]; try lia.
  unfold Qle, Qdiv, Qmult, Qinv, inject_Z. simpl.
  rewrite !Z.mul_1_r. rewrite Pos2Z.inj_mul. lia.
Qed.

Lemma estimatedDatapoints_le (r p n : Z) :
  0 < p -> (estimatedDatapoints r p <= n <-> r <= n * p * 1000).
Proof.
  intros Hp. unfold estimatedDatapoints. rewrite Qceiling_le_Z.
  by apply seconds_per_period_le.
Qed.

Lemma calculateQueryChunks_one (r p : Z) :
  0 < p -> (calculateQueryChunks r p = 1 <-> estimatedDatapoints r p <= MAX_DATAPOINTS).
Proof.
  intros Hp. unfold calculateQueryChunks.
  destruct (Z.leb_spec (estimatedDatapoints r p) MAX_DATAPOINTS) as [H|H]; [tauto|].
  split; [|lia]. intros E. exfalso.
  assert (Hc : Qceiling (inject_Z (estimatedDatapoints r p) / inject_Z MAX_DATAPOINTS)%Q <= 1)
    by lia.
  apply Qceiling_le_Z in Hc.
  revert Hc H. generalize (estimatedDatapoints r p). intros e.
  unfold Qle, Qdiv, Qmult, Qinv, inject_Z, MAX_DATAPOINTS. simpl. lia.
Qed.

(** ** The splitting loop *)

Lemma splitBound_next (d e c : Z) :
  0 < d -> c + d < e -> forall fuel, (splitBound d e c <= S fuel)%nat ->
  (splitBound d e (c + d) <= fuel)%nat.
Proof.
  intros Hd Hlt fuel. unfold splitBound.
  replace (e - (c + d)) with ((e - c) + (-1) * d) by lia.
  rewrite Z.div_add by lia.
  assert (1 <= (e - c) / d) by (apply Z.div_le_lower_bound; lia).
  lia.
Qed.

Lemma splitLoop_steps (d e : Z) :
  0 < d -> forall fuel c acc, c < e -> (splitBound d e c <= fuel)%nat ->
  exists tail, splitLoop fuel d e c acc = Some (acc ++ tail) /\ Steps d c e tail.
Proof.
  intros Hd. induction fuel as [|fuel IH]; intros c acc Hc Hfuel.
  - unfold splitBound in Hfuel. lia.
  - cbn [splitLoop]. destruct (Z.ltb_spec c e) as [_|]; [|lia].
    destruct (Z.le_gt_cases e (c + d)) as [Hlast|Hmore].
    + rewrite Z.min_r by lia.
      destruct (Z.gtb_spec e c) as [_|]; [|lia].
      destruct (Z.geb_spec e e) as [_|]; [|lia].
      exists [mkChunk c e]. split; [done|]. constructor; lia.
    + rewrite Z.min_l by lia.
      destruct (Z.gtb_spec (c + d) c) as [_|]; [|lia].
      destruct (Z.geb_spec (c + d) e) as [|_]; [lia|].
      destruct (IH (c + d) (acc ++ [mkChunk c (c + d)])) as (tail & Htail & Hsteps);
        [lia|by apply splitBound_next|].
      exists (mkChunk c (c + d) :: tail). split.
      * rewrite Htail. by rewrite <- app_assoc.
      * by constructor.
Qed.

(** A loop that can advance by no positive amount never leaves. *)
Lemma splitLoop_stuck (d e c : Z) (acc : list Chunk) :
  d <= 0 -> c < e -> forall fuel, splitLoop fuel d e c acc = None.
Proof.
  intros Hd Hc fuel. revert c acc Hc. induction fuel as [|fuel IH]; intros c acc Hc; [done|].
  cbn [splitLoop]. destruct (Z.ltb_spec c e) as [_|]; [|lia].
  rewrite Z.min_l by lia.
  destruct (Z.geb_spec (c + d) e) as [|_]; [lia|].
  destruct (Z.gtb_spec (c + d) c); [lia|].
  destruct (Z.eq_dec d 0) as [->|Hne].
  - rewrite Z.add_0_r. by apply IH.
  - apply IH. lia.
Qed.

Lemma Steps_last_end (d a b : Z) (cs : list Chunk) :
  Steps d a b cs -> exists c, last cs = Some c /\ c_end c = b.
Proof.
  induction 1 as [a b|a b cs Hlt Hs (c & Hc & He)].
  - by exists (mkChunk a b).
  - exists c. split; [|done]. destruct cs; [done|]. by rewrite last_cons, Hc.
Qed.

Lemma closeChunks_steps (d a b : Z) (cs : list Chunk) :
  Steps d a b cs -> closeChunks a b cs = cs.
Proof.
  intros (c & Hc & He)%Steps_last_end. unfold closeChunks. rewrite Hc, He.
  by rewrite Z.ltb_irrefl.
Qed.

Lemma Steps_tiles (d a b : Z) (cs : list Chunk) : 0 < d -> Steps d a b cs -> Tiles a b cs.
Proof. intros Hd. induction 1; constructor; auto; lia. Qed.

Lemma Steps_length (d a b : Z) (cs : list Chunk) :
  Steps d a b cs -> Forall (fun c => c_end c - c_start c <= d) cs.
Proof. induction 1; constructor; simpl; auto; lia. Qed.

Lemma Steps_functional (d a b : Z) (cs cs' : list Chunk) :
  Steps d a b cs -> Steps d a b cs' -> cs = cs'.
Proof.
  intros H. revert cs'. induction H; intros cs' H'; inversion H'; subst; try lia; try done.
  f_equal. auto.
Qed.

(** ** What a tiling gives *)

Lemma Tiles_lt (a b : Z) (cs : list Chunk) : Tiles a b cs -> a < b.
Proof. induction 1; lia. Qed.

Lemma Tiles_head (a b : Z) (cs : list Chunk) :
  Tiles a b cs -> exists c, head cs = Some c /\ c_start c = a.
Proof. destruct 1; eexists; split; done. Qed.

Lemma Tiles_last (a b : Z) (cs : list Chunk) :
  Tiles a b cs -> exists c, last cs = Some c /\ c_end c = b.
Proof.
  induction 1 as [a b|a m b cs Hlt Ht (c & Hc & He)].
  - by exists (mkChunk a b).
  - exists c. split; [|done]. destruct cs; [done|]. by rewrite last_cons, Hc.
Qed.

Lemma Tiles_nonempty (a b : Z) (cs : list Chunk) :
  Tiles a b cs -> Forall (fun c => c_start c < c_end c) cs.
Proof. induction 1; constructor; auto. Qed.

Lemma Tiles_within (a b : Z) (cs : list Chunk) :
  Tiles a b cs -> Forall (fun c => a <= c_start c /\ c_end c <= b) cs.
Proof.
  induction 1 as [a b|a m b cs Hlt Ht IH].
  - constructor; [simpl; lia|constructor].
  - apply Tiles_lt in Ht as Hmb. constructor; [simpl; lia|].
    eapply Forall_impl; [exact IH|]. simpl. intros c. lia.
Qed.

Lemma Tiles_covers (a b : Z) (cs : list Chunk) :
  Tiles a b cs -> forall t, a <= t <= b <-> exists c, c ∈ cs /\ covers t c.
Proof.
  intros Ht t. split.
  - revert t. induction Ht as [a b|a m b cs Hlt Ht IH]; intros t Hin.
    + exists (mkChunk a b). split; [left|done].
    + destruct (Z.le_gt_cases t m).
      * exists (mkChunk a m). split; [left|]. unfold covers. simpl. lia.
      * destruct (IH t) as (c & Hc & Hcov); [apply Tiles_lt in Ht; lia|].
        exists c. split; [by right|done].
  - intros (c & Hc & Hcov). apply Tiles_within in Ht.
    rewrite Forall_forall in Ht. apply Ht in Hc. unfold covers in Hcov. lia.
Qed.

Lemma Tiles_contiguous (a b : Z) (cs : list Chunk) :
  Tiles a b cs -> forall (i : nat) c c',
  cs !! i = Some c -> cs !! S i = Some c' -> c_end c = c_start c'.
Proof.
  induction 1 as [a b|a m b cs Hlt Ht IH]; intros i c c' Hi Hj.
  - destruct i; done.
  - destruct i as [|i].
    + simpl in Hi, Hj. injection Hi as <-.
      apply Tiles_head in Ht as (c0 & Hh & Hs).
      destruct cs; simpl in *; congruence.
    + simpl in Hi, Hj. eauto.
Qed.

Lemma Tiles_disjoint (a b : Z) (cs : list Chunk) :
  Tiles a b cs -> forall (i j : nat) c c',
  (i < j)%nat -> cs !! i = Some c -> cs !! j = Some c' -> c_end c <= c_start c'.
Proof.
  induction 1 as [a b|a m b cs Hlt Ht IH]; intros i j c c' Hij Hi Hj.
  - destruct i, j; try done; lia.
  - destruct j as [|j]; [lia|]. simpl in Hj. destruct i as [|i].
    + simpl in Hi. injection Hi as <-. simpl.
      apply Tiles_within in Ht. rewrite Forall_forall in Ht.
      apply list_elem_of_lookup_2 in Hj. apply Ht in Hj. exact (proj1 Hj).
    + simpl in Hi. apply (IH i j); [lia|done|done].
Qed.

Lemma chunkDatapoints_le (period : Z) (c : Chunk) :
  0 < period ->
  ((chunkDatapoints period c <= 1440)%Q <-> c_end c - c_start c <= 1440 * period * 1000).
Proof. intros Hp. unfold chunkDatapoints. by apply (seconds_per_period_le _ _ 1440). Qed.

Lemma buildChunks_steps (start end_ period : Z) :
  start < end_ -> 0 < period ->
  exists chunks,
    Steps (MAX_DATAPOINTS * period * 1000) start end_ chunks /\
    forall fuel, (splitBound (MAX_DATAPOINTS * period * 1000) end_ start <= fuel)%nat ->
      buildChunks fuel start end_ period = Some chunks.
Proof.
  intros Hlt Hp.
  assert (Hd : 0 < MAX_DATAPOINTS * period * 1000) by (unfold MAX_DATAPOINTS; lia).
  destruct (splitLoop_steps _ end_ Hd _ start [] Hlt (Nat.le_refl _)) as (chunks & _ & Hsteps).
  exists chunks. split; [done|]. intros fuel Hfuel.
  destruct (splitLoop_steps _ end_ Hd fuel start [] Hlt Hfuel) as (chunks' & Hrun & Hsteps').
  unfold buildChunks. rewrite Hrun. simpl.
  rewrite (Steps_functional _ _ _ _ _ Hsteps' Hsteps).
  by rewrite (closeChunks_steps _ _ _ _ Hsteps).
Qed.

(** C1. For a range with [start < end] and a period [> 0], the chunk plan is
    produced (any fuel from [splitBound] on gives it): it is the range itself
    when the estimated datapoints are at most 1440, and otherwise a walk in
    chunks of [1440 * period] seconds from [start], the last cut at [end];
    its chunks are non-empty, cover exactly the range, are contiguous, do not
    overlap except at shared boundary instants, and each has an estimated
    datapoint count of at most 1440. *)
Theorem plan_covers_range (start end_ period : Z) :
  start < end_ -> 0 < period ->
  exists chunks,
    (forall fuel, (splitBound (MAX_DATAPOINTS * period * 1000) end_ start <= fuel)%nat ->
       queryPlan fuel start end_ period (end_ - start) = Some chunks) /\
    (estimatedDatapoints (end_ - start) period <= 1440 -> chunks = [mkChunk start end_]) /\
    (1440 < estimatedDatapoints (end_ - start) period ->
       Steps (1440 * period * 1000) start end_ chunks) /\
    Tiles start end_ chunks /\
    (forall t, start <= t <= end_ <-> exists c, c ∈ chunks /\ covers t c) /\
    (forall (i : nat) c c',
       chunks !! i = Some c -> chunks !! S i = Some c' -> c_end c = c_start c') /\
    (forall (i j : nat) c c',
       (i < j)%nat -> chunks !! i = Some c -> chunks !! j = Some c' ->
       c_start c < c_end c /\ c_end c <= c_start c' /\ c_start c' < c_end c') /\
    Forall (fun c => (chunkDatapoints period c <= 1440)%Q) chunks.
Proof.
  intros Hlt Hp.
  assert (Hplan : exists chunks,
    (forall fuel, (splitBound (MAX_DATAPOINTS * period * 1000) end_ start <= fuel)%nat ->
       queryPlan fuel start end_ period (end_ - start) = Some chunks) /\
    (estimatedDatapoints (end_ - start) period <= 1440 -> chunks = [mkChunk start end_]) /\
    (1440 < estimatedDatapoints (end_ - start) period ->
       Steps (1440 * period * 1000) start end_ chunks) /\
    Tiles start end_ chunks /\
    Forall (fun c => c_end c - c_start c <= 1440 * period * 1000) chunks).
  { destruct (Z.le_gt_cases (estimatedDatapoints (end_ - start) period) 1440) as [Hest|Hest].
    - exists [mkChunk start end_]. split_and!.
      + intros fuel _. unfold queryPlan.
        by rewrite (proj2 (calculateQueryChunks_one _ _ Hp) Hest).
      + done.
      + lia.
      + by constructor.
      + constructor; [|constructor]. simpl. by apply estimatedDatapoints_le in Hest.
    - destruct (buildChunks_steps start end_ period Hlt Hp) as (chunks & Hsteps & Hrun).
      exists chunks. split_and!.
      + intros fuel Hfuel. unfold queryPlan.
        destruct (Z.eqb_spec (calculateQueryChunks (end_ - start) period) 1) as [E|_].
        * apply calculateQueryChunks_one in E; [|done]. unfold MAX_DATAPOINTS in E. lia.
        * by apply Hrun.
      + lia.
      + intros _. exact Hsteps.
      + eapply Steps_tiles; [|exact Hsteps]. unfold MAX_DATAPOINTS. lia.
      + by apply Steps_length in Hsteps. }
  destruct Hplan as (chunks & Hrun & Hone & Hmany & Htiles & Hlen).
  exists chunks. split_and!; try done.
  - by apply Tiles_covers.
  - by apply (Tiles_contiguous _ _ _ Htiles).
  - intros i j c c' Hij Hi Hj.
    apply Tiles_nonempty in Htiles as Hne. rewrite Forall_forall in Hne.
    split_and!.
    + apply Hne. by eapply list_elem_of_lookup_2.
    + by eapply (Tiles_disjoint _ _ _ Htiles i j).
    + apply Hne. by eapply list_elem_of_lookup_2.
  - eapply Forall_impl; [exact Hlen|]. intros c Hc. by apply chunkDatapoints_le.
Qed.

(** The scenario "2 days at 60 s": two chunks that tile the range. *)
Lemma plan_covers_range_two_days :
  0 < 172800000 /\ 0 < 60 /\
  exists chunks,
    queryPlan 3 0 172800000 60 (172800000 - 0) = Some chunks /\
    Tiles 0 172800000 chunks /\ length chunks = 2%nat.
Proof.
  split; [lia|]. split; [lia|].
  destruct (plan_covers_range 0 172800000 60) as (chunks & Hrun & _ & _ & Htiles & _);
    [lia|lia|].
  assert (Hfuel : (splitBound (MAX_DATAPOINTS * 60 * 1000) 172800000 0 <= 3)%nat)
    by (vm_compute; lia).
  exists chunks. split; [by apply Hrun|]. split; [done|].
  specialize (Hrun 3%nat Hfuel). vm_compute in Hrun. by injection Hrun as <-.
Defined.

Example plan_one_hour :
  estimatedDatapoints 3600000 300 = 12 /\
  queryPlan 0 0 3600000 300 3600000 = Some [mkChunk 0 3600000].
Proof. by vm_compute. Qed.

Example plan_two_days_estimate : estimatedDatapoints 172800000 60 = 2880.
Proof. by vm_compute. Qed.

Section RetryFacts.
Context {Val Src : Type}.
Variable send :
  GetMetricDataCommand -> Src -> (JsError + GetMetricDataOutput Val) * Src.

Lemma clientSend_run (command : GetMetricDataCommand) (w : World Src) :
  clientSend send command w =
  (match (send command (provider w)).1 with
   | inl error => Rejected error
   | inr response => Fulfilled response
   end,
   mkWorld (send command (provider w)).2 (history w ++ [Sent command])).
Proof. unfold clientSend. by destruct (send command (provider w)) as [[e|r] s]. Qed.

Lemma answers_S (n : nat) (command : GetMetricDataCommand) (s : Src) :
  answers send (S n) command s =
  ((send command s).1 :: (answers send n command (send command s).2).1,
   (answers send n command (send command s).2).2).
Proof.
  simpl. destruct (send command s) as [r s1]. simpl.
  by destruct (answers send n command s1).
Qed.

(** One unfolding of [fetchChunkWithRetry_from]. *)
Lemma fetchChunkWithRetry_from_step (depth : nat) (instanceId : string)
    (chunkStart chunkEnd period retryCount : Z) (w : World Src) :
  let command := mkCommand instanceId chunkStart chunkEnd period in
  let w1 := mkWorld (send command (provider w)).2 (history w ++ [Sent command]) in
  fetchChunkWithRetry_from send depth instanceId chunkStart chunkEnd period retryCount w =
  match (send command (provider w)).1 with
  | inr response => (Fulfilled (firstResult response), w1)
  | inl error =>
      if isThrottling error && (retryCount <? MAX_RETRIES) then
        let w2 := record (Slept (BASE_BACKOFF_MS * 2 ^ retryCount)) w1 in
        match depth with
        | S depth' =>
            fetchChunkWithRetry_from send depth' instanceId chunkStart chunkEnd period
              (retryCount + 1) w2
        | O => (Pending, w2)
        end
      else (Rejected error, w1)
  end.
Proof.
  intros command w1.
  destruct depth; cbn [fetchChunkWithRetry_from]; unfold tryCatch, mbind, M_bind;
    rewrite clientSend_run; fold command;
    destruct (send command (provider w)) as [[e|r] s]; simpl; try done;
    by destruct (isThrottling e && (retryCount <? MAX_RETRIES)).
Qed.

(** The run of a fetch against a provider that answers with throttling
    errors [errs] and then with [r], where [r] ends the retries. *)
Lemma fetchChunkWithRetry_from_run (instanceId : string) (chunkStart chunkEnd period : Z)
    (errs : list JsError) (r : JsError + GetMetricDataOutput Val) :
  let command := mkCommand instanceId chunkStart chunkEnd period in
  forall (depth : nat) (retryCount : Z) (w : World Src) (s' : Src),
  answers send (S (length errs)) command (provider w) = ((inl <$> errs) ++ [r], s') ->
  Forall (fun e => isThrottling e = true) errs ->
  retryCount + Z.of_nat (length errs) <= MAX_RETRIES ->
  (length errs <= depth)%nat ->
  match r with
  | inl e => isThrottling e = false \/ retryCount + Z.of_nat (length errs) = MAX_RETRIES
  | inr _ => True
  end ->
  fetchChunkWithRetry_from send depth instanceId chunkStart chunkEnd period retryCount w =
  (settles r,
   mkWorld s' (history w ++ failedAttempts command (length errs) retryCount ++ [Sent command])).
Proof.
  intros command. induction errs as [|e errs IH]; intros depth rc w s' Hans Hthr Hrc Hdepth Hend.
  - rewrite fetchChunkWithRetry_from_step. fold command. simpl in Hans.
    destruct (send command (provider w)) as [r0 s0]. simpl in *.
    injection Hans as -> ->. destruct r as [e|resp]; [|done].
    replace (isThrottling e && (rc <? MAX_RETRIES)) with false; [done|].
    destruct Hend as [->|E]; [done|].
    destruct (Z.ltb_spec rc MAX_RETRIES); [lia|]. by rewrite andb_false_r.
  - rewrite fetchChunkWithRetry_from_step. fold command.
    simpl length in Hans. rewrite answers_S in Hans.
    destruct (send command (provider w)) as [r0 s0] eqn:Hsend.
    cbn [fst snd] in Hans |- *.
    destruct (answers send (S (length errs)) command s0) as [rs s2] eqn:Hrest.
    cbn [fst snd fmap list_fmap app] in Hans. injection Hans as -> -> ->.
    apply Forall_cons in Hthr as [He Hthr]. rewrite He.
    simpl length in Hrc, Hdepth.
    destruct (Z.ltb_spec rc MAX_RETRIES); [|lia]. simpl andb. cbv iota.
    destruct depth as [|depth]; [lia|].
    assert (Hrc' : rc + 1 + Z.of_nat (length errs) <= MAX_RETRIES) by lia.
    assert (Hdepth' : (length errs <= depth)%nat) by lia.
    assert (Hend' : match r with
                    | inl e0 => isThrottling e0 = false
                                \/ rc + 1 + Z.of_nat (length errs) = MAX_RETRIES
                    | inr _ => True
                    end).
    { destruct r; [|done]. cbn [length] in Hend. destruct Hend; [by left|right; lia]. }
    rewrite (IH depth (rc + 1) (record (Slept (BASE_BACKOFF_MS * 2 ^ rc))
               (mkWorld s0 (history w ++ [Sent command]))) s' Hrest Hthr Hrc' Hdepth' Hend').
    simpl. unfold BASE_BACKOFF_MS. by rewrite <- !app_assoc.
Qed.

(** A fetch always settles: [MAX_RETRIES] nested calls are never exceeded. *)
Lemma fetchChunkWithRetry_from_settles (instanceId : string)
    (chunkStart chunkEnd period : Z) (depth : nat) (retryCount : Z) (w : World Src) :
  MAX_RETRIES <= retryCount + Z.of_nat depth ->
  (fetchChunkWithRetry_from send depth instanceId chunkStart chunkEnd period retryCount w).1
  <> Pending.
Proof.
  revert retryCount w. induction depth as [|depth IH]; intros rc w Hrc;
    rewrite fetchChunkWithRetry_from_step;
    destruct (send _ (provider w)) as [[e|resp] s]; simpl; try done.
  - destruct (Z.ltb_spec rc MAX_RETRIES); [lia|]. by rewrite andb_false_r.
  - destruct (isThrottling e && (rc <? MAX_RETRIES)); [|done]. apply IH. lia.
Qed.

Lemma fetchChunkWithRetry_settles (instanceId : string) (chunkStart chunkEnd period : Z)
    (w : World Src) :
  (fetchChunkWithRetry send instanceId chunkStart chunkEnd period w).1 <> Pending.
Proof. apply fetchChunkWithRetry_from_settles. unfold MAX_RETRIES. lia. Qed.


Lemma sentCommands_failedAttempts (command : GetMetricDataCommand) (n : nat) (rc : Z) :
  sentCommands (failedAttempts command n rc) = replicate n command.
Proof. revert rc. induction n as [|n IH]; intros rc; [done|]. simpl. by rewrite IH. Qed.

Lemma delays_failedAttempts (command : GetMetricDataCommand) (n : nat) :
  (n <= 3)%nat -> delays (failedAttempts command n 0) = take n [200; 400; 800].
Proof. intros Hn. do 4 (destruct n as [|n]; [done|]). lia. Qed.

Lemma sentCommands_app (h1 h2 : list Event) :
  sentCommands (h1 ++ h2) = sentCommands h1 ++ sentCommands h2.
Proof. apply omap_app. Qed.

Lemma delays_app (h1 h2 : list Event) : delays (h1 ++ h2) = delays h1 ++ delays h2.
Proof. apply omap_app. Qed.

(** C4. A chunk fetch whose provider answers every attempt with a
    rate-limit error makes exactly 4 calls, separated by delays of 200, 400
    and 800 ms, and is rejected with the 4th error itself; a fetch whose
    provider answers after at most 3 rate-limit errors is fulfilled, with
    one call per error and one more, and the delays that go with them. *)
Theorem throttled_fetch_retries (instanceId : string) (chunkStart chunkEnd period : Z)
    (w : World Src) :
  let command := mkCommand instanceId chunkStart chunkEnd period in
  (forall e1 e2 e3 e4 s',
     answers send 4 command (provider w) = ([inl e1; inl e2; inl e3; inl e4], s') ->
     isThrottling e1 = true -> isThrottling e2 = true ->
     isThrottling e3 = true -> isThrottling e4 = true ->
     fetchChunkWithRetry send instanceId chunkStart chunkEnd period w =
     (Rejected e4,
      mkWorld s' (history w ++
        [Sent command; Slept 200; Sent command; Slept 400;
         Sent command; Slept 800; Sent command]))) /\
  (forall errs response s',
     (length errs <= 3)%nat ->
     answers send (S (length errs)) command (provider w)
     = ((inl <$> errs) ++ [inr response], s') ->
     Forall (fun e => isThrottling e = true) errs ->
     exists w',
       fetchChunkWithRetry send instanceId chunkStart chunkEnd period w
       = (Fulfilled (firstResult response), w') /\
       provider w' = s' /\
       sentCommands (history w')
       = sentCommands (history w) ++ replicate (S (length errs)) command /\
       delays (history w') = delays (history w) ++ take (length errs) [200; 400; 800]).
Proof.
  intros command. split.
  - intros e1 e2 e3 e4 s' Hans H1 H2 H3 H4. unfold fetchChunkWithRetry.
    apply (fetchChunkWithRetry_from_run instanceId chunkStart chunkEnd period
             [e1; e2; e3] (inl e4) _ 0 w s' Hans).
    + by repeat constructor.
    + done.
    + done.
    + by right.
  - intros errs response s' Hlen Hans Hthr. unfold fetchChunkWithRetry.
    assert (Hrc : 0 + Z.of_nat (length errs) <= MAX_RETRIES)
      by (unfold MAX_RETRIES; lia).
    assert (Hdepth : (length errs <= Z.to_nat MAX_RETRIES)%nat)
      by (unfold MAX_RETRIES; lia).
    rewrite (fetchChunkWithRetry_from_run instanceId chunkStart chunkEnd period
               errs (inr response) _ 0 w s' Hans Hthr Hrc Hdepth I).
    eexists. split; [done|]. split; [done|]. cbn [history]. fold command.
    rewrite !sentCommands_app, !delays_app, sentCommands_failedAttempts,
      delays_failedAttempts by done.
    split.
    + f_equal. change (sentCommands [Sent command]) with [command].
      by rewrite <- replicate_S_end.
    + change (delays [Sent command]) with (@nil Z). by rewrite app_nil_r.
Qed.


End RetryFacts.

(** A provider that always throttles is called 4 times, with the three
    delays, and its error comes back; one that throttles twice and then
    answers is called 3 times. *)
Lemma throttled_fetch_retries_scripted :
  fetchChunkWithRetry scripted "i-xxx" 0 60000 300
    (mkWorld [inl throttled; inl throttled; inl throttled; inl throttled] [])
  = (Rejected throttled,
     mkWorld []
       (let command := mkCommand "i-xxx" 0 60000 300 in
        [Sent command; Slept 200; Sent command; Slept 400;
         Sent command; Slept 800; Sent command]))
  /\ exists w',
      fetchChunkWithRetry scripted "i-xxx" 0 60000 300
        (mkWorld [inl throttled; inl throttled; inr (samples [(1000, 42%Q)])] [])
      = (Fulfilled (mkResult (Some [Some 1000]) (Some [Some 42%Q])), w')
      /\ length (sentCommands (history w')) = 3%nat /\ delays (history w') = [200; 400].
Proof.
  split.
  - by apply (proj1 (throttled_fetch_retries scripted "i-xxx" 0 60000 300
      (mkWorld [inl throttled; inl throttled; inl throttled; inl throttled] []))
      throttled throttled throttled throttled []).
  - destruct (proj2 (throttled_fetch_retries scripted "i-xxx" 0 60000 300
      (mkWorld [inl throttled; inl throttled; inr (samples [(1000, 42%Q)])] []))
      [throttled; throttled] (samples [(1000, 42%Q)]) [])
      as (w' & Hrun & _ & Hsent & Hdelays).
    + simpl. lia.
    + done.
    + by repeat constructor.
    + exists w'. split; [exact Hrun|]. by rewrite Hsent, Hdelays.
Defined.


(** ** Promise.all *)

Section PromiseFacts.
Context {A : Type}.

Lemma fulfilledValues_fmap (vs : list A) : fulfilledValues (Fulfilled <$> vs) = Some vs.
Proof. induction vs as [|v vs IH]; [done|]. csimpl. by rewrite IH. Qed.

Lemma fulfilledValues_Some (os : list (Outcome A)) (vs : list A) :
  fulfilledValues os = Some vs -> os = Fulfilled <$> vs.
Proof.
  revert vs. induction os as [|o os IH]; intros vs; [by intros [= <-]|].
  destruct o as [a| |]; simpl; [|done|done].
  intros (vs' & Hvs' & ->)%fmap_Some. by rewrite (IH vs' Hvs').
Qed.

Lemma firstRejection_elem (l : list (nat * Outcome A)) (t : nat) (e : JsError) :
  firstRejection l = Some (t, e) -> (t, Rejected e) ∈ l.
Proof.
  revert t e. induction l as [|[t0 o] l IH]; intros t e; [done|].
  destruct o as [a|e0|]; simpl.
  - intros H. right. by apply IH.
  - destruct (firstRejection l) as [[t' e']|].
    + destruct (t' <? t0)%nat; intros [= <- <-]; [right; by apply IH|left].
    + intros [= <- <-]. left.
  - intros H. right. by apply IH.
Qed.

Lemma firstRejection_None (l : list (nat * Outcome A)) :
  firstRejection l = None -> forall t e, (t, Rejected e) ∉ l.
Proof.
  induction l as [|[t0 o] l IH]; intros H t e Hin; [by apply elem_of_nil in Hin|].
  destruct o as [a|e0|]; simpl in H.
  - apply elem_of_cons in Hin as [[=]|Hin]. by eapply IH.
  - by destruct (firstRejection l) as [[t' e']|]; [destruct (t' <? t0)%nat|].
  - apply elem_of_cons in Hin as [[=]|Hin]. by eapply IH.
Qed.

Lemma settleAll_fulfilled (times : list nat) (os : list (Outcome A)) (vs : list A) :
  settleAll times os = Fulfilled vs -> os = Fulfilled <$> vs.
Proof.
  unfold settleAll. destruct (firstRejection _) as [[t e]|]; [done|].
  destruct (fulfilledValues os) as [vs'|] eqn:E; [|done].
  intros [= <-]. by apply fulfilledValues_Some.
Qed.

Lemma settleAll_values (times : list nat) (vs : list A) :
  settleAll times (Fulfilled <$> vs) = Fulfilled vs.
Proof.
  unfold settleAll.
  destruct (firstRejection _) as [[t e]|] eqn:E.
  - apply firstRejection_elem, elem_of_zip_r, list_elem_of_fmap in E as (v & [=] & _).
  - by rewrite fulfilledValues_fmap.
Qed.

Lemma settleAll_rejected (times : list nat) (os : list (Outcome A)) (e : JsError) :
  settleAll times os = Rejected e -> Rejected e ∈ os.
Proof.
  unfold settleAll. destruct (firstRejection _) as [[t e']|] eqn:E.
  - intros [= <-]. by apply firstRejection_elem, elem_of_zip_r in E.
  - by destruct (fulfilledValues os).
Qed.

(** A batch with a rejected promise and no pending one is rejected, or
    fulfilled when nothing was rejected. *)
Lemma settleAll_settled (times : list nat) (os : list (Outcome A)) :
  length times = length os -> Forall (fun o => o <> Pending) os ->
  (exists e, settleAll times os = Rejected e /\ Rejected e ∈ os) \/
  (exists vs, settleAll times os = Fulfilled vs /\ os = Fulfilled <$> vs).
Proof.
  intros Hlen Hset. unfold settleAll.
  destruct (firstRejection _) as [[t e]|] eqn:E.
  - left. exists e. split; [done|]. by apply firstRejection_elem, elem_of_zip_r in E.
  - right. assert (Hvs : exists vs, os = Fulfilled <$> vs).
    { pose proof (firstRejection_None _ E) as Hno. clear E.
      revert times Hlen Hno. induction Hset as [|o os Ho Hos IH]; intros times Hlen Hno.
      - by exists [].
      - destruct times as [|t times]; [done|]. simpl in Hlen.
        destruct (IH times) as (vs & ->); [lia| |].
        + intros t' e Hin. apply (Hno t' e). by right.
        + destruct o as [a|e|]; [by exists (a :: vs)| |done].
          exfalso. apply (Hno t e). left. }
    destruct Hvs as (vs & ->). exists vs. by rewrite fulfilledValues_fmap.
Qed.

End PromiseFacts.

Section RunFacts.
Context {Src A : Type}.

Lemma runAll_app (ps qs : list (M Src A)) (w : World Src) :
  runAll (ps ++ qs) w =
  ((runAll ps w).1 ++ (runAll qs (runAll ps w).2).1, (runAll qs (runAll ps w).2).2).
Proof.
  revert w. induction ps as [|p ps IH]; intros w; simpl.
  - by destruct (runAll qs w).
  - destruct (p w) as [o w1]. rewrite IH.
    destruct (runAll ps w1) as [os w2]. simpl. by destruct (runAll qs w2).
Qed.

Lemma runAll_length (ps : list (M Src A)) (w : World Src) :
  length (runAll ps w).1 = length ps.
Proof.
  revert w. induction ps as [|p ps IH]; intros w; simpl; [done|].
  destruct (p w) as [o w1]. specialize (IH w1).
  destruct (runAll ps w1) as [os w2]. simpl in *. by rewrite IH.
Qed.

Lemma runAll_Forall (P : Outcome A -> Prop) (ps : list (M Src A)) (w : World Src) :
  Forall (fun p => forall w, P (p w).1) ps -> Forall P (runAll ps w).1.
Proof.
  intros H. revert w. induction H as [|p ps Hp Hps IH]; intros w; simpl; [done|].
  specialize (Hp w). destruct (p w) as [o w1]. specialize (IH w1).
  destruct (runAll ps w1) as [os w2]. by constructor.
Qed.

End RunFacts.

(** ** The batched fetch *)

Section SchedulerFacts.
Context {Val Src : Type}.
Variable send :
  GetMetricDataCommand -> Src -> (JsError + GetMetricDataOutput Val) * Src.
Variable settledAt : Chunk -> nat.

Lemma Promise_all_run {A} (times : list nat) (ps : list (M Src A)) (w : World Src) :
  Promise_all times ps w = (settleAll times (runAll ps w).1, (runAll ps w).2).
Proof. unfold Promise_all. by destruct (runAll ps w). Qed.

Lemma batchFetches_settle (instanceId : string) (period : Z) (batch : list Chunk)
    (w : World Src) :
  Forall (fun o => o <> Pending) (runAll (batchFetches send instanceId period batch) w).1.
Proof.
  apply runAll_Forall, Forall_fmap, Forall_forall. intros chunk _ w1.
  apply fetchChunkWithRetry_settles.
Qed.

Lemma batchFetches_app (instanceId : string) (period : Z) (b1 b2 : list Chunk) :
  batchFetches send instanceId period (b1 ++ b2)
  = batchFetches send instanceId period b1 ++ batchFetches send instanceId period b2.
Proof. apply fmap_app. Qed.

Lemma fetchBatches_step (instanceId : string) (chunks : list Chunk) (period : Z)
    (i : nat) (starts : list nat) (acc : list (MetricDataResult Val)) (w : World Src) :
  let batch := take MAX_CONCURRENT_REQUESTS (drop i chunks) in
  let run := runAll (batchFetches send instanceId period batch) w in
  fetchBatches send settledAt instanceId chunks period (i :: starts) acc w =
  match settleAll (settledAt <$> batch) run.1 with
  | Fulfilled batchResults =>
      fetchBatches send settledAt instanceId chunks period starts (acc ++ batchResults) run.2
  | Rejected e => (Rejected e, run.2)
  | Pending => (Pending, run.2)
  end.
Proof.
  intros batch run. cbn [fetchBatches]. unfold mbind, M_bind, slice.
  replace (i + MAX_CONCURRENT_REQUESTS - i)%nat with MAX_CONCURRENT_REQUESTS by lia.
  fold batch. rewrite Promise_all_run. fold run.
  by destruct (settleAll (settledAt <$> batch) run.1).
Qed.

Lemma take_batches (chunks : list Chunk) (j n : nat) :
  take (S n * MAX_CONCURRENT_REQUESTS) (drop (nthBatchStart j) chunks)
  = take MAX_CONCURRENT_REQUESTS (drop (nthBatchStart j) chunks)
    ++ take (n * MAX_CONCURRENT_REQUESTS) (drop (nthBatchStart (S j)) chunks).
Proof.
  unfold nthBatchStart.
  replace (S n * MAX_CONCURRENT_REQUESTS)%nat
    with (MAX_CONCURRENT_REQUESTS + n * MAX_CONCURRENT_REQUESTS)%nat by lia.
  rewrite <- take_take_drop, drop_drop. do 3 f_equal. lia.
Qed.

(** The batches are fulfilled exactly when the chunk fetches, run one
    after the other, all are; the results are then theirs, in order. *)
Lemma fetchBatches_fulfilled (instanceId : string) (chunks : list Chunk) (period : Z)
    (n : nat) :
  forall (j : nat) (acc results : list (MetricDataResult Val)) (w w' : World Src),
  fetchBatches send settledAt instanceId chunks period (nthBatchStart <$> seq j n) acc w
  = (Fulfilled results, w') <->
  exists rs, results = acc ++ rs /\
    runAll (batchFetches send instanceId period
              (take (n * MAX_CONCURRENT_REQUESTS) (drop (nthBatchStart j) chunks))) w
    = (Fulfilled <$> rs, w').
Proof.
  induction n as [|n IH]; intros j acc results w w'.
  - simpl. unfold mret, M_ret. split.
    + intros [= <- <-]. exists []. by rewrite app_nil_r.
    + intros (rs & -> & [= Hrs <-]). destruct rs; [|done]. by rewrite app_nil_r.
  - cbn [seq fmap list_fmap]. rewrite fetchBatches_step. cbv zeta.
    change (list_fmap _ _ nthBatchStart (seq (S j) n)) with (nthBatchStart <$> seq (S j) n).
    rewrite take_batches, batchFetches_app, runAll_app.
    set (batch := take MAX_CONCURRENT_REQUESTS (drop (nthBatchStart j) chunks)).
    set (run := runAll (batchFetches send instanceId period batch) w).
    cbn [fst snd]. split.
    + destruct (settleAll (settledAt <$> batch) run.1) as [brs| |] eqn:E; [|done|done].
      apply settleAll_fulfilled in E.
      intros (rs & -> & Hrest)%IH. exists (brs ++ rs).
      split; [by rewrite app_assoc|]. rewrite Hrest, E. cbn [fst snd].
      by rewrite fmap_app.
    + intros (rs & -> & [= Hos <-]).
      apply eq_sym, fmap_app_inv in Hos as (brs & rs' & Hbrs & Hrs' & ->).
      rewrite Hbrs, settleAll_values. apply IH. exists rs'.
      split; [by rewrite app_assoc|]. rewrite <- Hrs'.
      by destruct (runAll _ run.2).
Qed.

(** A rejected chunk fetch rejects the batches, with the error of a chunk
    fetch. *)
Lemma fetchBatches_rejected (instanceId : string) (chunks : list Chunk) (period : Z)
    (e : JsError) (n : nat) :
  forall (j : nat) (acc : list (MetricDataResult Val)) (w : World Src),
  let os := (runAll (batchFetches send instanceId period
               (take (n * MAX_CONCURRENT_REQUESTS) (drop (nthBatchStart j) chunks))) w).1 in
  Rejected e ∈ os ->
  exists e' w',
    fetchBatches send settledAt instanceId chunks period (nthBatchStart <$> seq j n) acc w
    = (Rejected e', w') /\ Rejected e' ∈ os.
Proof.
  induction n as [|n IH]; intros j acc w os Hin.
  - subst os. simpl in Hin. by apply elem_of_nil in Hin.
  - cbn [seq fmap list_fmap]. rewrite fetchBatches_step. cbv zeta.
    change (list_fmap _ _ nthBatchStart (seq (S j) n)) with (nthBatchStart <$> seq (S j) n).
    subst os. revert Hin. rewrite take_batches, batchFetches_app, runAll_app.
    set (batch := take MAX_CONCURRENT_REQUESTS (drop (nthBatchStart j) chunks)).
    set (run := runAll (batchFetches send instanceId period batch) w).
    cbn [fst snd]. intros Hin.
    destruct (settleAll_settled (settledAt <$> batch) run.1)
      as [(e' & -> & He')|(brs & -> & Hbrs)].
    + subst run. unfold batchFetches. by rewrite runAll_length, !length_fmap.
    + apply batchFetches_settle.
    + exists e', run.2. split; [done|]. apply elem_of_app. by left.
    + apply elem_of_app in Hin as [Hin|Hin].
      * rewrite Hbrs in Hin. by apply list_elem_of_fmap in Hin as (v & [=] & _).
      * destruct (IH (S j) (acc ++ brs) run.2 Hin) as (e' & w' & Hrun & He').
        exists e', w'. split; [done|]. apply elem_of_app. by right.
Qed.

Lemma batchStarts_seq (n : nat) :
  batchStarts n
  = nthBatchStart <$> seq 0 (Nat.div (n + MAX_CONCURRENT_REQUESTS - 1) MAX_CONCURRENT_REQUESTS).
Proof. done. Qed.

(** The values of [i] the loop visits: the multiples of the batch size
    below [n]. *)
Lemma batchStarts_spec (n i : nat) :
  i ∈ batchStarts n <-> (i < n)%nat /\ (i mod MAX_CONCURRENT_REQUESTS = 0)%nat.
Proof.
  unfold batchStarts. rewrite list_elem_of_fmap.
  unfold nthBatchStart, MAX_CONCURRENT_REQUESTS. split.
  - intros (k & -> & Hk). apply elem_of_seq in Hk. split.
    + pose proof (Nat.div_mod_eq (n + 5 - 1) 5).
      pose proof (Nat.mod_upper_bound (n + 5 - 1) 5). lia.
    + by rewrite Nat.Div0.mod_mul.
  - intros [Hlt Hmod]. exists (i / 5)%nat. split.
    + pose proof (Nat.div_mod_eq i 5). lia.
    + apply elem_of_seq. split; [lia|].
      pose proof (Nat.div_mod_eq i 5). pose proof (Nat.div_mod_eq (n + 5 - 1) 5).
      pose proof (Nat.mod_upper_bound (n + 5 - 1) 5). lia.
Qed.

Lemma take_all_batches (chunks : list Chunk) :
  take (Nat.div (length chunks + MAX_CONCURRENT_REQUESTS - 1) MAX_CONCURRENT_REQUESTS
        * MAX_CONCURRENT_REQUESTS) (drop (nthBatchStart 0) chunks) = chunks.
Proof.
  unfold nthBatchStart, MAX_CONCURRENT_REQUESTS. simpl drop. apply take_ge.
  pose proof (Nat.div_mod_eq (length chunks + 5 - 1) 5).
  pose proof (Nat.mod_upper_bound (length chunks + 5 - 1) 5). lia.
Qed.


End SchedulerFacts.

(** ** Rounding *)

Lemma roundedTs_Z (t : Z) : roundedTs t = (t + 500) / 1000 * 1000.
Proof.
  unfold roundedTs, Math_round. f_equal.
  unfold Qfloor, Qplus, Qdiv, Qmult, Qinv, inject_Z. simpl.
  change (Z.pos (1 * 1000 * 2)) with (1000 * 2).
  change (Z.pos (1 * 1000)) with 1000.
  replace (t * 1 * 2 + 1 * 1000) with ((t + 500) * 2) by lia.
  by rewrite Z.div_mul_cancel_r.
Qed.

(** ** Merging *)

Section SeriesFacts.
Context {Val : Type}.
Implicit Types (dp : DataPoint Val) (l : list (DataPoint Val)).

Lemma dedupFrom_sublist (seen : gset Z) l : dedupFrom seen l `sublist_of` l.
Proof.
  revert seen. induction l as [|dp l IH]; intros seen; simpl; [done|].
  case_bool_decide; [by apply sublist_cons|by apply sublist_skip].
Qed.

Lemma dedupFrom_unseen (seen : gset Z) l dp :
  dp ∈ dedupFrom seen l -> secondOf dp ∉ seen.
Proof.
  revert seen. induction l as [|dp0 l IH]; intros seen; simpl.
  - by intros ?%elem_of_nil.
  - case_bool_decide as Hseen; [by apply IH|].
    intros [->|Hin]%elem_of_cons; [done|]. apply IH in Hin.
    unfold secondOf in *. set_solver.
Qed.

Lemma dedupFrom_NoDup (seen : gset Z) l : NoDup (secondOf <$> dedupFrom seen l).
Proof.
  revert seen. induction l as [|dp l IH]; intros seen; simpl; [constructor|].
  case_bool_decide as Hseen; [by apply IH|]. csimpl. constructor; [|by apply IH].
  intros (dp' & Hkey & Hin)%list_elem_of_fmap. apply dedupFrom_unseen in Hin.
  unfold secondOf in *. set_solver.
Qed.

(** Of the points of one second the first is kept, and only it. *)
Lemma dedupFrom_second (seen : gset Z) l (k : Z) :
  filter (fun dp => secondOf dp = k) (dedupFrom seen l)
  = if bool_decide (k ∈ seen) then []
    else take 1 (filter (fun dp => secondOf dp = k) l).
Proof.
  revert seen. induction l as [|dp l IH]; intros seen; simpl.
  - by case_bool_decide.
  - fold (secondOf dp). rewrite (filter_cons _ dp l).
    destruct (bool_decide_reflect (secondOf dp ∈ seen)) as [Hseen|Hseen].
    + rewrite IH. case_bool_decide as Hk; [done|].
      case_decide as Hdp; [congruence|done].
    + rewrite filter_cons, IH. case_decide as Hdp.
      * subst k.
        rewrite (bool_decide_eq_true_2 (_ ∈ {[_]} ∪ _))
          by (by apply elem_of_union_l, elem_of_singleton).
        by rewrite (bool_decide_eq_false_2 (_ ∈ seen)).
      * destruct (bool_decide_reflect (k ∈ seen)) as [Hk|Hk].
        -- rewrite bool_decide_eq_true_2; [done|set_solver].
        -- rewrite bool_decide_eq_false_2; [done|set_solver].
Qed.

Lemma insertPoint_perm dp l : insertPoint dp l ≡ₚ dp :: l.
Proof.
  induction l as [|b l IH]; simpl; [done|].
  destruct (_ <=? 0); [done|]. rewrite IH. apply Permutation_swap.
Qed.

Lemma sortByTimestamp_perm l : sortByTimestamp l ≡ₚ l.
Proof.
  induction l as [|dp l IH]; simpl; [done|]. by rewrite insertPoint_perm, IH.
Qed.

Lemma insertPoint_sorted dp l :
  StronglySorted notAfter l -> StronglySorted notAfter (insertPoint dp l).
Proof.
  induction 1 as [|b l Hl IH Hb]; simpl; [by repeat constructor|].
  destruct (Z.leb_spec (dp_timestamp dp - dp_timestamp b) 0) as [Hle|Hgt].
  - constructor; [by constructor|]. constructor; [unfold notAfter; lia|].
    eapply Forall_impl; [exact Hb|]. unfold notAfter. intros c. simpl. lia.
  - constructor; [done|]. rewrite insertPoint_perm. constructor; [|done].
    unfold notAfter. lia.
Qed.

Lemma sortByTimestamp_sorted l : StronglySorted notAfter (sortByTimestamp l).
Proof.
  induction l as [|dp l IH]; simpl; [constructor|]. by apply insertPoint_sorted.
Qed.

Lemma sorted_strict l :
  StronglySorted notAfter l -> NoDup (secondOf <$> l) -> StronglySorted before l.
Proof.
  induction 1 as [|b l Hl IH Hb]; csimpl; [constructor|].
  intros [Hnot Hnd]%NoDup_cons. constructor; [by apply IH|].
  apply Forall_forall. intros c Hc. rewrite Forall_forall in Hb.
  specialize (Hb c Hc). unfold before, notAfter in *.
  destruct (Z.eq_dec (dp_timestamp b) (dp_timestamp c)) as [E|]; [|lia].
  exfalso. apply Hnot. apply list_elem_of_fmap. exists c. split; [|done].
  unfold secondOf. by rewrite E.
Qed.

(** The points returned: strictly ascending, one per second. *)
Lemma uniquePoints_sorted (start end_ : Z) (rs : list (MetricDataResult Val)) :
  StronglySorted before (uniquePoints start end_ rs)
  /\ NoDup (secondOf <$> uniquePoints start end_ rs).
Proof.
  assert (Hnd : NoDup (secondOf <$> uniquePoints start end_ rs)).
  { unfold uniquePoints. rewrite sortByTimestamp_perm. apply dedupFrom_NoDup. }
  split; [|done]. apply sorted_strict; [|done]. apply sortByTimestamp_sorted.
Qed.

Lemma uniquePoints_second (start end_ : Z) (rs : list (MetricDataResult Val)) (k : Z) :
  filter (fun dp => secondOf dp = k) (uniquePoints start end_ rs)
  = take 1 (filter (fun dp => secondOf dp = k) (collect start end_ rs)).
Proof.
  unfold uniquePoints.
  assert (Hperm : filter (fun dp => secondOf dp = k)
                    (sortByTimestamp (dedupFrom ∅ (collect start end_ rs)))
                  ≡ₚ take 1 (filter (fun dp => secondOf dp = k) (collect start end_ rs))).
  { rewrite sortByTimestamp_perm, dedupFrom_second. by rewrite bool_decide_eq_false_2. }
  destruct (filter _ (collect start end_ rs)) as [|dp0 l0]; simpl in *.
  - by apply Permutation_nil_r in Hperm.
  - rewrite take_0 in Hperm. by apply Permutation_singleton_r in Hperm.
Qed.

Lemma uniquePoints_subset (start end_ : Z) (rs : list (MetricDataResult Val)) dp :
  dp ∈ uniquePoints start end_ rs -> dp ∈ collect start end_ rs.
Proof.
  unfold uniquePoints. rewrite sortByTimestamp_perm.
  intros Hin. eapply elem_of_sublist; [exact Hin|apply dedupFrom_sublist].
Qed.

Lemma uniquePoints_nonempty (start end_ : Z) (rs : list (MetricDataResult Val)) :
  collect start end_ rs <> [] -> uniquePoints start end_ rs <> [].
Proof.
  unfold uniquePoints. destruct (collect start end_ rs) as [|dp l]; [done|].
  intros _ Hnil. apply (f_equal length) in Hnil.
  rewrite sortByTimestamp_perm in Hnil. simpl in Hnil.
  by rewrite bool_decide_eq_false_2 in Hnil by set_solver.
Qed.

(** What is kept of a sample. *)
Lemma keepSample_Some (start end_ : Z) (sample : option Z * option Val) dp :
  keepSample start end_ sample = Some dp <->
  exists ts value, sample = (Some ts, Some value)
    /\ start - 1000 <= ts <= end_ + 1000 /\ dp = mkPoint ts value.
Proof.
  destruct sample as [[ts|] [v|]]; simpl; try naive_solver.
  destruct (Z.leb_spec (start - 1000) ts), (Z.leb_spec ts (end_ + 1000)); simpl;
    split; try naive_solver; try (intros (? & ? & [= <- <-] & ? & ?); lia).
Qed.

Lemma collect_elem (start end_ : Z) (rs : list (MetricDataResult Val)) dp :
  dp ∈ collect start end_ rs <->
  exists result (i : nat),
    result ∈ rs
    /\ default [] (Timestamps result) !! i = Some (Some (dp_timestamp dp))
    /\ default [] (Values result) !! i = Some (Some (dp_cpu dp))
    /\ start - 1000 <= dp_timestamp dp <= end_ + 1000.
Proof.
  unfold collect. rewrite list_elem_of_bind. unfold collectResult. split.
  - intros (result & (sample & Hin & Hkeep)%list_elem_of_omap & Hres).
    apply keepSample_Some in Hkeep as (ts & v & -> & Hrange & ->).
    apply elem_of_lookup_zip_with in Hin as (i & t & v' & [= <- <-] & Ht & Hv).
    by exists result, i.
  - intros (result & i & Hres & Ht & Hv & Hrange). exists result. split; [|done].
    apply list_elem_of_omap. exists (Some (dp_timestamp dp), Some (dp_cpu dp)). split.
    + apply elem_of_lookup_zip_with. by exists i, (Some (dp_timestamp dp)), (Some (dp_cpu dp)).
    + apply keepSample_Some. exists (dp_timestamp dp), (dp_cpu dp). by destruct dp.
Qed.

Lemma collect_no_data (start end_ : Z) (rs : list (MetricDataResult Val)) :
  hasData rs = false -> collect start end_ rs = [].
Proof.
  intros Hno. apply elem_of_nil_inv. intros dp (result & i & Hres & Ht & _)%collect_elem.
  unfold hasData in Hno. rewrite <- not_true_iff_false, existsb_exists in Hno.
  apply Hno. exists result. split; [by apply list_elem_of_In|].
  unfold resultHasData. apply orb_true_iff. right. apply Nat.ltb_lt.
  apply lookup_lt_Some in Ht. lia.
Qed.

End SeriesFacts.

(** ** The assembled response *)

Section ResponseFacts.
Context {Val : Type}.
Variable formatTime : Z -> string.

Lemma filter_formatPoint (k : Z) (l : list (DataPoint Val)) :
  filter (fun p => roundedTs (timestamp p) = k) (formatPoint formatTime <$> l)
  = formatPoint formatTime <$> filter (fun dp => secondOf dp = k) l.
Proof.
  induction l as [|dp l IH]; [done|]. csimpl. rewrite !filter_cons, IH.
  unfold secondOf. simpl. by case_decide.
Qed.

Lemma timestamps_formatPoint (l : list (DataPoint Val)) :
  timestamp <$> (formatPoint formatTime <$> l) = dp_timestamp <$> l.
Proof. rewrite <- list_fmap_compose. by apply list_fmap_ext. Qed.

Lemma inferResolution_fires (adjusted : option string) (interval : string)
    (points : list (DataPoint Val)) :
  inferResolution adjusted interval points
  = if gapDetectionFires adjusted interval points then Some "5m"%string else adjusted.
Proof.
  unfold inferResolution, gapDetectionFires.
  destruct (bool_decide (adjusted = None) && String.eqb interval "1m"
            && (1 <? length points)%nat); [|done].
  simpl. by destruct (gapsOf points).
Qed.

Lemma gapDetection_after_fallback (interval : string) (points : list (DataPoint Val)) :
  gapDetectionFires (Some "5m"%string) interval points = false.
Proof. done. Qed.

Lemma gapDetection_other_interval (adjusted : option string) (interval : string)
    (points : list (DataPoint Val)) :
  interval <> "1m"%string -> gapDetectionFires adjusted interval points = false.
Proof.
  intros Hne%String.eqb_neq. unfold gapDetectionFires. rewrite Hne.
  by rewrite andb_false_r.
Qed.

Lemma PERIOD_MAP_60 (interval : string) :
  default 300 (PERIOD_MAP interval) = 60 <-> interval = "1m"%string.
Proof.
  unfold PERIOD_MAP. destruct (String.eqb_spec interval "1m"); [done|].
  repeat (destruct (String.eqb interval _)); simpl; split; (done || lia).
Qed.

Lemma emptyFallback_other_interval (interval : string) (rs : list (MetricDataResult Val)) :
  interval <> "1m"%string ->
  emptyFallbackFires rs (default 300 (PERIOD_MAP interval)) = false.
Proof.
  intros Hne. unfold emptyFallbackFires.
  destruct (Z.eqb_spec (default 300 (PERIOD_MAP interval)) 60) as [E|_].
  - by apply PERIOD_MAP_60 in E.
  - by rewrite andb_false_r.
Qed.

Lemma gapsOf_short (points : list (DataPoint Val)) :
  (length points <= 1)%nat -> gapsOf points = [].
Proof. destruct points as [|a [|b l]]; simpl; (done || lia). Qed.

(** C6 (amended). Of the kept samples (value present, timestamp within one
    second of the range) that round to one and the same second, the
    returned points hold exactly one, the first in input order: later
    samples that collide after rounding are dropped.  In particular two
    kept samples with rounded-equal timestamps, such as equal timestamps,
    give one point with the value of the first sample of that second. *)
Theorem one_point_per_rounded_second (start end_ : Z) (interval : string)
    (adjusted : option string) (rs : list (MetricDataResult Val)) :
  let kept := collect start end_ rs in
  let points := data (assemble formatTime start end_ interval adjusted rs) in
  (forall k,
     filter (fun p => roundedTs (timestamp p) = k) points
     = formatPoint formatTime <$> take 1 (filter (fun dp => secondOf dp = k) kept)) /\
  (forall (i j : nat) a b,
     i <> j -> kept !! i = Some a -> kept !! j = Some b ->
     roundedTs (dp_timestamp a) = roundedTs (dp_timestamp b) ->
     exists first,
       head (filter (fun dp => secondOf dp = secondOf a) kept) = Some first /\
       filter (fun p => roundedTs (timestamp p) = secondOf a) points
       = [formatPoint formatTime first]).
Proof.
  intros kept points.
  assert (Hsec : forall k,
    filter (fun p => roundedTs (timestamp p) = k) points
    = formatPoint formatTime <$> take 1 (filter (fun dp => secondOf dp = k) kept)).
  { intros k. subst points kept. unfold assemble. cbn [data].
    by rewrite filter_formatPoint, uniquePoints_second. }
  split; [exact Hsec|]. intros i j a b _ Ha _ _. rewrite Hsec.
  assert (Hin : a ∈ filter (fun dp => secondOf dp = secondOf a) kept).
  { apply list_elem_of_filter. split; [done|]. by eapply list_elem_of_lookup_2. }
  destruct (filter _ kept) as [|first l]; [by apply elem_of_nil in Hin|].
  by exists first.
Qed.

(** The points of an assembled response are in strictly ascending order
    of timestamp, and no two of them fall in the same second. *)
Lemma assemble_sorted (start end_ : Z) (interval : string)
    (adjusted : option string) (rs : list (MetricDataResult Val)) :
  let points := data (assemble formatTime start end_ interval adjusted rs) in
  StronglySorted Z.lt (timestamp <$> points)
  /\ NoDup (roundedTs <$> (timestamp <$> points)).
Proof.
  intros points. subst points. unfold assemble. cbn [data].
  rewrite timestamps_formatPoint.
  destruct (uniquePoints_sorted start end_ rs) as [Hsorted Hnd]. split.
  - eapply StronglySorted_fmap; [|exact Hsorted]. done.
  - by rewrite <- list_fmap_compose.
Qed.

Lemma keepSample_discards (start end_ : Z) :
  (forall ts, keepSample (Val := Val) start end_ (ts, None) = None) /\
  (forall value : option Val, keepSample start end_ (None, value) = None) /\
  (forall ts (value : option Val),
     ts < start - 1000 \/ end_ + 1000 < ts ->
     keepSample start end_ (Some ts, value) = None).
Proof.
  split_and!.
  - by intros [ts|].
  - done.
  - intros ts [v|] Hout; [|done]. simpl.
    destruct (Z.leb_spec (start - 1000) ts), (Z.leb_spec ts (end_ + 1000)); (done || lia).
Qed.

(** Every point of an assembled response is a sample of a fetched result
    that has a value and a timestamp within one second of the range. *)
Lemma assemble_valid (start end_ : Z) (interval : string)
    (adjusted : option string) (rs : list (MetricDataResult Val)) :
  (forall p, p ∈ data (assemble formatTime start end_ interval adjusted rs) ->
     start - 1000 <= timestamp p <= end_ + 1000 /\
     exists result (i : nat),
       result ∈ rs
       /\ default [] (Timestamps result) !! i = Some (Some (timestamp p))
       /\ default [] (Values result) !! i = Some (Some (cpu p))).
Proof.
  intros p (dp & -> & Hdp)%list_elem_of_fmap.
  apply uniquePoints_subset, collect_elem in Hdp as (result & i & Hres & Ht & Hv & Hrange).
  split; [done|]. by exists result, i.
Qed.

Lemma assemble_no_data (start end_ : Z) (interval : string) (rs : list (MetricDataResult Val)) :
  hasData rs = false ->
  assemble formatTime start end_ interval (Some "5m"%string) rs
  = mkResponse [] (Some "5m"%string).
Proof.
  intros Hno. unfold assemble, uniquePoints. by rewrite (collect_no_data _ _ _ Hno).
Qed.

Lemma assemble_after_fallback (start end_ : Z) (interval : string)
    (rs : list (MetricDataResult Val)) :
  assemble formatTime start end_ interval (Some "5m"%string) rs
  = mkResponse (formatPoint formatTime <$> uniquePoints start end_ rs) (Some "5m"%string).
Proof. done. Qed.

Lemma assemble_other_interval (start end_ : Z) (interval : string)
    (rs : list (MetricDataResult Val)) :
  interval <> "1m"%string ->
  assemble formatTime start end_ interval None rs
  = mkResponse (formatPoint formatTime <$> uniquePoints start end_ rs) None.
Proof.
  intros Hne. unfold assemble.
  by rewrite inferResolution_fires, gapDetection_other_interval.
Qed.

End ResponseFacts.

(** ** The query *)

Section QueryFacts.
Context {Val Src : Type}.
Variable send :
  GetMetricDataCommand -> Src -> (JsError + GetMetricDataOutput Val) * Src.
Variable settledAt : Chunk -> nat.
Variable formatTime : Z -> string.

Abbreviation fetch := (fetchMetricsWithPeriod send settledAt).
Abbreviation query := (getCpuMetrics send settledAt formatTime).

(** The query, by the outcome of its fetches. *)
Lemma getCpuMetrics_run (fuel : nat) (instanceId : string) (start end_ : Z)
    (interval : string) (w : World Src) :
  let period := default 300 (PERIOD_MAP interval) in
  query fuel instanceId start end_ interval w =
  match fetch fuel instanceId start end_ period (end_ - start) w with
  | (Fulfilled rs, w1) =>
      if emptyFallbackFires rs period then
        match fetch fuel instanceId start end_ 300 (end_ - start) w1 with
        | (Fulfilled rs2, w2) =>
            (Fulfilled (assemble formatTime start end_ interval (Some "5m"%string) rs2), w2)
        | (Rejected e, w2) => (Rejected e, w2)
        | (Pending, w2) => (Pending, w2)
        end
      else (Fulfilled (assemble formatTime start end_ interval None rs), w1)
  | (Rejected e, w1) => (Rejected e, w1)
  | (Pending, w1) => (Pending, w1)
  end.
Proof.
  intros period. unfold getCpuMetrics, mbind, M_bind. fold period.
  destruct (fetch fuel instanceId start end_ period (end_ - start) w) as [[rs|e|] w1];
    [|done|done].
  destruct (emptyFallbackFires rs period); [|done].
  by destruct (fetch fuel instanceId start end_ 300 (end_ - start) w1) as [[rs2|e|] w2].
Qed.

(** A response is assembled from the results of the last fetch. *)
Lemma getCpuMetrics_response (fuel : nat) (instanceId : string) (start end_ : Z)
    (interval : string) (w w' : World Src) (response : MetricResponse Val) :
  query fuel instanceId start end_ interval w = (Fulfilled response, w') ->
  exists period w0 rs adjusted,
    fetch fuel instanceId start end_ period (end_ - start) w0 = (Fulfilled rs, w')
    /\ response = assemble formatTime start end_ interval adjusted rs.
Proof.
  rewrite getCpuMetrics_run. cbv zeta.
  destruct (fetch fuel instanceId start end_ _ (end_ - start) w) as [[rs|e|] w1] eqn:E1;
    [|done|done].
  destruct (emptyFallbackFires rs _).
  - destruct (fetch fuel instanceId start end_ 300 (end_ - start) w1) as [[rs2|e|] w2] eqn:E2;
      [|done|done].
    intros [= <- <-]. by exists 300, w1, rs2, (Some "5m"%string).
  - intros [= <- <-]. by exists (default 300 (PERIOD_MAP interval)), w, rs, None.
Qed.

(** Every query takes one of the two courses. *)
Lemma getCpuMetrics_courses (fuel : nat) (instanceId : string) (start end_ : Z)
    (interval : string) (w : World Src) :
  query fuel instanceId start end_ interval w
  = fetchedOnce send settledAt formatTime fuel instanceId start end_ interval w
  \/ query fuel instanceId start end_ interval w
     = fetchedTwice send settledAt formatTime fuel instanceId start end_ interval w.
Proof.
  rewrite getCpuMetrics_run. cbv zeta.
  unfold fetchedOnce, fetchedTwice, mbind, M_bind.
  destruct (fetch fuel instanceId start end_ _ (end_ - start) w) as [[rs|e|] w1] eqn:E1;
    [|by left|by left].
  destruct (emptyFallbackFires rs _) eqn:Hfire; [right|by left].
  unfold emptyFallbackFires in Hfire. apply andb_true_iff in Hfire as [_ Hp%Z.eqb_eq].
  rewrite Hp in E1. rewrite E1.
  by destruct (fetch fuel instanceId start end_ 300 (end_ - start) w1) as [[rs2|e|] w2].
Qed.


(** C2 (amended). When the interval is "1m" and the fetch at 60 s returns
    no sample, the query fetches the same range once more, at 300 s, and
    does nothing else with the provider; a response then carries
    [adjustedInterval = "5m"]; its points are not empty when the second
    fetch returned a sample with a value and a timestamp within one second
    of the range; and every query is one fetch, or one fetch and one
    re-fetch. *)
Theorem empty_fetch_is_refetched_once (fuel : nat) (instanceId : string)
    (start end_ : Z) (w w1 : World Src) (rs1 : list (MetricDataResult Val)) :
  fetch fuel instanceId start end_ 60 (end_ - start) w = (Fulfilled rs1, w1) ->
  hasData rs1 = false ->
  query fuel instanceId start end_ "1m" w
  = match fetch fuel instanceId start end_ 300 (end_ - start) w1 with
    | (Fulfilled rs2, w2) =>
        (Fulfilled (mkResponse (formatPoint formatTime <$> uniquePoints start end_ rs2)
                      (Some "5m"%string)), w2)
    | (Rejected e, w2) => (Rejected e, w2)
    | (Pending, w2) => (Pending, w2)
    end
  /\ (forall rs2 w2,
        fetch fuel instanceId start end_ 300 (end_ - start) w1 = (Fulfilled rs2, w2) ->
        (exists result (i : nat) ts value,
           result ∈ rs2
           /\ default [] (Timestamps result) !! i = Some (Some ts)
           /\ default [] (Values result) !! i = Some (Some value)
           /\ start - 1000 <= ts <= end_ + 1000) ->
        exists response,
          query fuel instanceId start end_ "1m" w = (Fulfilled response, w2)
          /\ data response <> [] /\ adjustedInterval response = Some "5m"%string)
  /\ (forall interval' w',
        query fuel instanceId start end_ interval' w'
        = fetchedOnce send settledAt formatTime fuel instanceId start end_ interval' w'
        \/ query fuel instanceId start end_ interval' w'
           = fetchedTwice send settledAt formatTime fuel instanceId start end_ interval' w').
Proof.
  intros Hfetch Hempty.
  assert (Hrun : query fuel instanceId start end_ "1m" w
    = match fetch fuel instanceId start end_ 300 (end_ - start) w1 with
      | (Fulfilled rs2, w2) =>
          (Fulfilled (mkResponse (formatPoint formatTime <$> uniquePoints start end_ rs2)
                        (Some "5m"%string)), w2)
      | (Rejected e, w2) => (Rejected e, w2)
      | (Pending, w2) => (Pending, w2)
      end).
  { rewrite getCpuMetrics_run. cbv zeta.
    change (default 300 (PERIOD_MAP "1m")) with 60. rewrite Hfetch.
    unfold emptyFallbackFires. rewrite Hempty. simpl.
    by destruct (fetch fuel instanceId start end_ 300 (end_ - start) w1) as [[rs2|e|] w2]. }
  split_and!.
  - exact Hrun.
  - intros rs2 w2 Hfetch2 (result & i & ts & value & Hres & Ht & Hv & Hrange).
    rewrite Hrun, Hfetch2. eexists. split; [done|]. split; [|done]. cbn [data].
    intros Hnil%fmap_nil_inv. revert Hnil. apply uniquePoints_nonempty.
    intros Hnone.
    assert (Hin : mkPoint ts value ∈ collect start end_ rs2)
      by (apply collect_elem; by exists result, i).
    rewrite Hnone in Hin. by apply elem_of_nil in Hin.
  - intros interval' w'. apply getCpuMetrics_courses.
Qed.

(** C3. When the interval is "1m" and the fetch returned samples whose
    points, deduplicated and sorted, have a smallest positive gap of at
    least 240 s, the response carries [adjustedInterval = "5m"] and the
    points of this one fetch, and the provider is left as that fetch left
    it.  The two fallbacks exclude each other: results that trigger the
    re-fetch do not trigger the gap detection, and after a re-fetch the gap
    detection does not fire.  For an interval other than "1m" neither
    fires: the query is one fetch and carries no [adjustedInterval]. *)
Theorem coarse_gaps_are_labelled (fuel : nat) (instanceId : string)
    (start end_ : Z) (w : World Src) :
  (forall rs w1 gap gaps,
     fetch fuel instanceId start end_ 60 (end_ - start) w = (Fulfilled rs, w1) ->
     hasData rs = true ->
     gapsOf (uniquePoints start end_ rs) = gap :: gaps ->
     (240 <= Math_min gap gaps)%Q ->
     query fuel instanceId start end_ "1m" w
     = (Fulfilled (mkResponse (formatPoint formatTime <$> uniquePoints start end_ rs)
                     (Some "5m"%string)), w1))
  /\ (forall (rs : list (MetricDataResult Val)) period,
        emptyFallbackFires rs period = true ->
        gapDetectionFires None "1m" (uniquePoints start end_ rs) = false)
  /\ (forall interval (points : list (DataPoint Val)),
        gapDetectionFires (Some "5m"%string) interval points = false)
  /\ (forall interval,
        interval <> "1m"%string ->
        (forall (rs : list (MetricDataResult Val)),
           emptyFallbackFires rs (default 300 (PERIOD_MAP interval)) = false)
        /\ (forall adjusted (points : list (DataPoint Val)),
              gapDetectionFires adjusted interval points = false)
        /\ query fuel instanceId start end_ interval w
           = match fetch fuel instanceId start end_ (default 300 (PERIOD_MAP interval))
                     (end_ - start) w with
             | (Fulfilled rs, w1) =>
                 (Fulfilled (mkResponse (formatPoint formatTime <$> uniquePoints start end_ rs)
                               None), w1)
             | (Rejected e, w1) => (Rejected e, w1)
             | (Pending, w1) => (Pending, w1)
             end).
Proof.
  split_and!.
  - intros rs w1 gap gaps Hfetch Hdata Hgaps Hmin.
    rewrite getCpuMetrics_run. cbv zeta.
    change (default 300 (PERIOD_MAP "1m")) with 60. rewrite Hfetch.
    unfold emptyFallbackFires. rewrite Hdata. simpl. do 2 f_equal.
    unfold assemble. f_equal. unfold inferResolution.
    destruct (Nat.ltb_spec 1 (length (uniquePoints start end_ rs))) as [_|Hshort].
    + simpl. rewrite Hgaps. apply Qle_bool_iff in Hmin. by rewrite Hmin.
    + rewrite gapsOf_short in Hgaps; [done|lia].
  - intros rs period [Hno _]%andb_true_iff. apply negb_true_iff in Hno.
    unfold uniquePoints. by rewrite (collect_no_data _ _ _ Hno).
  - done.
  - intros interval Hne. split_and!.
    + intros rs. by apply emptyFallback_other_interval.
    + intros adjusted points. by apply gapDetection_other_interval.
    + rewrite getCpuMetrics_run. cbv zeta.
      destruct (fetch fuel instanceId start end_ _ (end_ - start) w) as [[rs|e|] w1];
        [|done|done].
      rewrite emptyFallback_other_interval by done.
      by rewrite assemble_other_interval.
Qed.

(** C8. Whatever the samples the provider returned and their order, the
    points of a response are in strictly ascending order of timestamp, and
    no two of them round to the same second. *)
Theorem points_sorted_and_unique (fuel : nat) (instanceId : string) (start end_ : Z)
    (interval : string) (w w' : World Src) (response : MetricResponse Val) :
  query fuel instanceId start end_ interval w = (Fulfilled response, w') ->
  StronglySorted Z.lt (timestamp <$> data response)
  /\ NoDup (roundedTs <$> (timestamp <$> data response)).
Proof.
  intros (period & w0 & rs & adjusted & _ & ->)%getCpuMetrics_response.
  apply assemble_sorted.
Qed.

(** C9. A sample without a value, without a timestamp, or with a timestamp
    outside [start - 1 s, end + 1 s] is discarded; hence every point of a
    response is a sample of a result of the last fetch that has a value,
    which the point carries, and a timestamp within one second of the
    range. *)
Theorem points_valid_and_in_range (fuel : nat) (instanceId : string) (start end_ : Z)
    (interval : string) (w w' : World Src) (response : MetricResponse Val) :
  query fuel instanceId start end_ interval w = (Fulfilled response, w') ->
  (forall ts, keepSample (Val := Val) start end_ (ts, None) = None) /\
  (forall value : option Val, keepSample start end_ (None, value) = None) /\
  (forall ts (value : option Val),
     ts < start - 1000 \/ end_ + 1000 < ts ->
     keepSample start end_ (Some ts, value) = None) /\
  exists period w0 rs,
    fetch fuel instanceId start end_ period (end_ - start) w0 = (Fulfilled rs, w') /\
    forall p, p ∈ data response ->
      start - 1000 <= timestamp p <= end_ + 1000 /\
      exists result (i : nat),
        result ∈ rs
        /\ default [] (Timestamps result) !! i = Some (Some (timestamp p))
        /\ default [] (Values result) !! i = Some (Some (cpu p)).
Proof.
  intros (period & w0 & rs & adjusted & Hfetch & ->)%getCpuMetrics_response.
  destruct (keepSample_discards (Val := Val) start end_) as (H1 & H2 & H3).
  split_and!; [done|done|done|]. exists period, w0, rs. split; [done|].
  apply assemble_valid.
Qed.

(** C10. When the interval is "1m" and neither the fetch at 60 s nor the
    re-fetch at 300 s returns a sample, the response still carries
    [adjustedInterval = "5m"], with no points. *)
Theorem empty_refetch_keeps_label (fuel : nat) (instanceId : string) (start end_ : Z)
    (w w1 w2 : World Src) (rs1 rs2 : list (MetricDataResult Val)) :
  fetch fuel instanceId start end_ 60 (end_ - start) w = (Fulfilled rs1, w1) ->
  hasData rs1 = false ->
  fetch fuel instanceId start end_ 300 (end_ - start) w1 = (Fulfilled rs2, w2) ->
  hasData rs2 = false ->
  query fuel instanceId start end_ "1m" w
  = (Fulfilled (mkResponse [] (Some "5m"%string)), w2).
Proof.
  intros Hfetch1 Hempty1 Hfetch2 Hempty2.
  rewrite getCpuMetrics_run. cbv zeta.
  change (default 300 (PERIOD_MAP "1m")) with 60. rewrite Hfetch1.
  unfold emptyFallbackFires. rewrite Hempty1. simpl. rewrite Hfetch2.
  by rewrite assemble_no_data.
Qed.

End QueryFacts.

(** ** Enough fuel *)

Section FuelFacts.
Context {Val Src : Type}.
Variable send :
  GetMetricDataCommand -> Src -> (JsError + GetMetricDataOutput Val) * Src.
Variable settledAt : Chunk -> nat.
Variable formatTime : Z -> string.

Lemma PERIOD_MAP_positive (interval : string) : 60 <= default 300 (PERIOD_MAP interval).
Proof. unfold PERIOD_MAP. repeat (destruct (String.eqb interval _)); simpl; lia. Qed.

Lemma splitBound_mono (d d' e c : Z) :
  0 < d <= d' -> (splitBound d' e c <= splitBound d e c)%nat.
Proof.
  intros Hd. unfold splitBound. destruct (Z.le_gt_cases 0 (e - c)) as [Hpos|Hneg].
  - apply le_n_S, Z2Nat.inj_le; [apply Z.div_pos; lia|apply Z.div_pos; lia|].
    apply Z.div_le_compat_l; lia.
  - assert ((e - c) / d' < 0) by (apply Z.div_lt_upper_bound; lia). lia.
Qed.

Lemma fetchBatches_settles (instanceId : string) (chunks : list Chunk) (period : Z)
    (starts : list nat) :
  forall (acc : list (MetricDataResult Val)) (w : World Src),
  (fetchBatches send settledAt instanceId chunks period starts acc w).1 <> Pending.
Proof.
  induction starts as [|i starts IH]; intros acc w; [done|].
  rewrite fetchBatches_step. cbv zeta.
  set (batch := take MAX_CONCURRENT_REQUESTS (drop i chunks)).
  set (run := runAll (batchFetches send instanceId period batch) w).
  destruct (settleAll_settled (settledAt <$> batch) run.1)
    as [(e' & -> & _)|(brs & -> & _)]; [| |done|apply IH].
  - subst run. unfold batchFetches. by rewrite runAll_length, !length_fmap.
  - apply batchFetches_settle.
Qed.

(** With fuel for the splitting loop, a fetch of the plan settles, and the
    amount of fuel does not matter. *)
Lemma fetchMetricsWithPeriod_enough (fuel : nat) (instanceId : string)
    (start end_ period : Z) (w : World Src) :
  0 < period ->
  (splitBound (MAX_DATAPOINTS * period * 1000) end_ start <= fuel)%nat ->
  (fetchMetricsWithPeriod send settledAt fuel instanceId start end_ period (end_ - start) w).1
  <> Pending
  /\ forall fuel',
      (splitBound (MAX_DATAPOINTS * period * 1000) end_ start <= fuel')%nat ->
      fetchMetricsWithPeriod send settledAt fuel' instanceId start end_ period (end_ - start) w
      = fetchMetricsWithPeriod send settledAt fuel instanceId start end_ period (end_ - start) w.
Proof.
  intros Hp Hfuel. unfold fetchMetricsWithPeriod.
  destruct (Z.eqb_spec (calculateQueryChunks (end_ - start) period) 1) as [Hone|Hmany].
  - split; [|done]. unfold mbind, M_bind.
    pose proof (fetchChunkWithRetry_settles send instanceId start end_ period w) as Hs.
    by destruct (fetchChunkWithRetry send instanceId start end_ period w) as [[r|e|] w1].
  - assert (Hlt : start < end_).
    { destruct (Z.le_gt_cases end_ start) as [Hle|]; [|lia]. exfalso. apply Hmany.
      apply calculateQueryChunks_one; [done|].
      apply estimatedDatapoints_le; [done|]. unfold MAX_DATAPOINTS. lia. }
    destruct (buildChunks_steps start end_ period Hlt Hp) as (chunks & _ & Hrun).
    rewrite (Hrun fuel Hfuel). split.
    + apply fetchBatches_settles.
    + intros fuel' Hfuel'. by rewrite (Hrun fuel' Hfuel').
Qed.

(** With fuel for the finest period, a query settles, fulfilled or
    rejected, and more fuel changes nothing. *)
Lemma getCpuMetrics_enough (fuel : nat) (instanceId : string) (start end_ : Z)
    (interval : string) (w : World Src) :
  (splitBound (MAX_DATAPOINTS * 60 * 1000) end_ start <= fuel)%nat ->
  (getCpuMetrics send settledAt formatTime fuel instanceId start end_ interval w).1 <> Pending
  /\ forall fuel',
      (splitBound (MAX_DATAPOINTS * 60 * 1000) end_ start <= fuel')%nat ->
      getCpuMetrics send settledAt formatTime fuel' instanceId start end_ interval w
      = getCpuMetrics send settledAt formatTime fuel instanceId start end_ interval w.
Proof.
  intros Hfuel. pose proof (PERIOD_MAP_positive interval) as Hperiod.
  assert (Hbound : forall p f, 60 <= p ->
    (splitBound (MAX_DATAPOINTS * 60 * 1000) end_ start <= f)%nat ->
    (splitBound (MAX_DATAPOINTS * p * 1000) end_ start <= f)%nat).
  { intros p f Hp Hf. etransitivity; [|exact Hf]. apply splitBound_mono.
    unfold MAX_DATAPOINTS. lia. }
  assert (Hfetch : forall p w0, 60 <= p ->
    (fetchMetricsWithPeriod send settledAt fuel instanceId start end_ p (end_ - start) w0).1
    <> Pending
    /\ forall fuel',
        (splitBound (MAX_DATAPOINTS * 60 * 1000) end_ start <= fuel')%nat ->
        fetchMetricsWithPeriod send settledAt fuel' instanceId start end_ p (end_ - start) w0
        = fetchMetricsWithPeriod send settledAt fuel instanceId start end_ p (end_ - start) w0).
  { intros p w0 Hp.
    destruct (fetchMetricsWithPeriod_enough fuel instanceId start end_ p w0) as [Hs Hsame];
      [lia|by apply Hbound|].
    split; [done|]. intros fuel' Hfuel'. apply Hsame. by apply Hbound. }
  destruct (Hfetch (default 300 (PERIOD_MAP interval)) w Hperiod) as [Hs1 Hsame1].
  split.
  - rewrite getCpuMetrics_run. cbv zeta.
    destruct (fetchMetricsWithPeriod send settledAt fuel instanceId start end_ _ _ w)
      as [[rs|e|] w1]; [|done|done].
    destruct (emptyFallbackFires rs _); [|done].
    destruct (Hfetch 300 w1) as [Hs2 _]; [lia|].
    by destruct (fetchMetricsWithPeriod send settledAt fuel instanceId start end_ 300 _ w1)
      as [[rs2|e|] w2].
  - intros fuel' Hfuel'. rewrite !getCpuMetrics_run. cbv zeta.
    rewrite (Hsame1 fuel' Hfuel').
    destruct (fetchMetricsWithPeriod send settledAt fuel instanceId start end_ _ _ w)
      as [[rs|e|] w1]; [|done|done].
    destruct (emptyFallbackFires rs _); [|done].
    destruct (Hfetch 300 w1) as [_ Hsame2]; [lia|]. by rewrite (Hsame2 fuel' Hfuel').
Qed.

End FuelFacts.

(** C2, as stated, fails: the fetch at 60 s is empty, the re-fetch at 300 s
    returns a sample, stamped with the start of its 5-minute period, which
    lies before the one-minute range asked for; the response has no point. *)
Lemma refetched_samples_can_all_be_dropped :
  let send := byPeriod (samples []) (samples [(0, 75%Q)]) in
  let w := mkWorld tt [] in
  let w1 := mkWorld tt [Sent (mkCommand "i-xxx" 154000 214000 60)] in
  let w2 := mkWorld tt [Sent (mkCommand "i-xxx" 154000 214000 60);
                        Sent (mkCommand "i-xxx" 154000 214000 300)] in
  fetchMetricsWithPeriod send noSettleOrder 0 "i-xxx" 154000 214000 60 (214000 - 154000) w
  = (Fulfilled [mkResult (Some []) (Some [])], w1)
  /\ fetchMetricsWithPeriod send noSettleOrder 0 "i-xxx" 154000 214000 300 (214000 - 154000) w1
     = (Fulfilled [mkResult (Some [Some 0]) (Some [Some 75%Q])], w2)
  /\ hasData [mkResult (Some [Some 0]) (Some [Some 75%Q])] = true
  /\ getCpuMetrics send noSettleOrder noLabel 0 "i-xxx" 154000 214000 "1m" w
     = (Fulfilled (mkResponse [] (Some "5m"%string)), w2).
Proof. by vm_compute. Qed.

(** C6, as stated, fails: two samples one millisecond apart that round to
    different seconds both stay. *)
Lemma subsecond_neighbours_can_both_stay :
  Z.abs (1500 - 1499) < 1000
  /\ data (assemble noLabel 0 60000 "5m" None
            [mkResult (Some [Some 1499; Some 1500]) (Some [Some 10%Q; Some 20%Q])])
     = [mkCpuDataPoint "" 10%Q 1499; mkCpuDataPoint "" 20%Q 1500].
Proof. by vm_compute. Qed.

(** The re-fetch of the code's own test: nothing at 60 s, one sample at
    300 s. *)
Lemma empty_fetch_is_refetched_once_at_5m :
  let send := byPeriod (samples []) (samples [(1000, 75%Q)]) in
  exists response w2,
    getCpuMetrics send noSettleOrder noLabel 0 "i-xxx" 0 60000 "1m" (mkWorld tt [])
    = (Fulfilled response, w2)
    /\ data response <> [] /\ adjustedInterval response = Some "5m"%string
    /\ sentCommands (history w2)
       = [mkCommand "i-xxx" 0 60000 60; mkCommand "i-xxx" 0 60000 300].
Proof.
  intros send.
  destruct (empty_fetch_is_refetched_once send noSettleOrder noLabel 0 "i-xxx" 0 60000
              (mkWorld tt []) (mkWorld tt [Sent (mkCommand "i-xxx" 0 60000 60)])
              [mkResult (Some []) (Some [])]) as (_ & Hpoints & _).
  - by vm_compute.
  - done.
  - destruct (Hpoints [mkResult (Some [Some 1000]) (Some [Some 75%Q])]
                (mkWorld tt [Sent (mkCommand "i-xxx" 0 60000 60);
                             Sent (mkCommand "i-xxx" 0 60000 300)]))
      as (response & Hrun & Hdata & Hadj).
    + by vm_compute.
    + exists (mkResult (Some [Some 1000]) (Some [Some 75%Q])), 0%nat, 1000, 75%Q.
      split_and!; [left|done|done|lia|lia].
    + by exists response, (mkWorld tt [Sent (mkCommand "i-xxx" 0 60000 60);
                                     Sent (mkCommand "i-xxx" 0 60000 300)]).
Defined.

(** Three samples 300 s apart for a "1m" query: labelled "5m" after the one
    call. *)
Lemma coarse_gaps_are_labelled_three_samples :
  let script := [inr (samples [(3600000, 10%Q); (3900000, 20%Q); (4200000, 30%Q)])] in
  exists points,
    getCpuMetrics scripted noSettleOrder noLabel 0 "i-xxx" 0 10800000 "1m" (mkWorld script [])
    = (Fulfilled (mkResponse points (Some "5m"%string)),
       mkWorld [] [Sent (mkCommand "i-xxx" 0 10800000 60)])
    /\ timestamp <$> points = [3600000; 3900000; 4200000].
Proof.
  intros script. eexists. split.
  - eapply (proj1 (coarse_gaps_are_labelled scripted noSettleOrder noLabel 0 "i-xxx"
                     0 10800000 (mkWorld script []))).
    + by vm_compute.
    + done.
    + by vm_compute.
    + by vm_compute.
  - by vm_compute.
Defined.


(** Samples out of order come back in order. *)
Lemma points_sorted_and_unique_shuffled :
  let script := [inr (samples [(600000, 10%Q); (0, 20%Q); (300000, 30%Q)])] in
  exists response w',
    getCpuMetrics scripted noSettleOrder noLabel 0 "i-xxx" 0 7200000 "5m" (mkWorld script [])
    = (Fulfilled response, w')
    /\ timestamp <$> data response = [0; 300000; 600000]
    /\ StronglySorted Z.lt (timestamp <$> data response)
    /\ NoDup (roundedTs <$> (timestamp <$> data response)).
Proof.
  intros script. eexists _, _. split; [by vm_compute|]. split; [done|].
  eapply (points_sorted_and_unique scripted noSettleOrder noLabel 0 "i-xxx" 0 7200000 "5m"
            (mkWorld script [])).
  by vm_compute.
Defined.

(** A sample without value and a sample out of range are left out. *)
Lemma points_valid_and_in_range_filtered :
  let script := [inr (mkOutput (Some [mkResult (Some [Some 1000; Some 2000; Some 99000])
                                        (Some [Some 50%Q; None; Some 70%Q])]))] in
  exists response w',
    getCpuMetrics scripted noSettleOrder noLabel 0 "i-xxx" 0 60000 "5m" (mkWorld script [])
    = (Fulfilled response, w')
    /\ timestamp <$> data response = [1000]
    /\ forall p, p ∈ data response -> 0 - 1000 <= timestamp p <= 60000 + 1000.
Proof.
  intros script. eexists _, _. split; [by vm_compute|]. split; [done|].
  destruct (points_valid_and_in_range scripted noSettleOrder noLabel 0 "i-xxx" 0 60000 "5m"
              (mkWorld script []) _ _ ltac:(by vm_compute))
    as (_ & _ & _ & period & w0 & rs & _ & Hpoints).
  intros p Hp. by apply Hpoints.
Defined.

(** Nothing at 60 s and nothing at 300 s. *)
Lemma empty_refetch_keeps_label_no_data :
  let send := byPeriod (samples []) (samples []) in
  getCpuMetrics send noSettleOrder noLabel 0 "i-xxx" 0 60000 "1m" (mkWorld tt [])
  = (Fulfilled (mkResponse [] (Some "5m"%string)),
     mkWorld tt [Sent (mkCommand "i-xxx" 0 60000 60); Sent (mkCommand "i-xxx" 0 60000 300)]).
Proof.
  intros send.
  by apply (empty_refetch_keeps_label send noSettleOrder noLabel 0 "i-xxx" 0 60000
              (mkWorld tt []) (mkWorld tt [Sent (mkCommand "i-xxx" 0 60000 60)]) _
              [mkResult (Some []) (Some [])] [mkResult (Some []) (Some [])]).
Defined.

(** Three samples of one timestamp: one point, with the first value. *)
Lemma one_point_per_rounded_second_duplicates :
  let rs := [mkResult (Some [Some 5000; Some 5000; Some 5400])
               (Some [Some 10%Q; Some 20%Q; Some 30%Q])] in
  filter (fun p => roundedTs (timestamp p) = 5000)
    (data (assemble noLabel 0 60000 "1m" None rs))
  = [mkCpuDataPoint "" 10%Q 5000].
Proof.
  intros rs.
  destruct (proj2 (one_point_per_rounded_second noLabel 0 60000 "1m" None rs)
              0%nat 2%nat (mkPoint 5000 10%Q) (mkPoint 5400 30%Q))
    as (first & Hfirst & Hpoints); [done|done|done|done|].
  change (secondOf (mkPoint 5000 10%Q)) with 5000 in Hfirst, Hpoints.
  rewrite Hpoints. vm_compute in Hfirst. by injection Hfirst as <-.
Defined.

(** * Further properties *)

(** ** The number of chunks *)

Lemma Qceiling_quotient (a b : Z) :
  0 < b -> Qceiling (inject_Z a / inject_Z b)%Q = - ((- a) / b).
Proof.
  intros Hb. destruct b as [|bp|bp]; try lia.
  unfold Qceiling, Qfloor, Qopp, Qdiv, Qmult, Qinv, inject_Z. simpl.
  by rewrite Z.mul_1_r, Pos.mul_1_l.
Qed.

Lemma estimatedDatapoints_Z (r p : Z) :
  0 < p -> estimatedDatapoints r p = - ((- r) / (1000 * p)).
Proof.
  intros Hp. unfold estimatedDatapoints.
  destruct p as [|pp|pp]; try lia.
  unfold Qceiling, Qfloor, Qopp, Qdiv, Qmult, Qinv, inject_Z. simpl.
  rewrite !Z.mul_1_r. by rewrite Pos2Z.inj_mul.
Qed.

Lemma calculateQueryChunks_Z (r p : Z) :
  0 < p -> MAX_DATAPOINTS < estimatedDatapoints r p ->
  calculateQueryChunks r p = - ((- r) / (MAX_DATAPOINTS * p * 1000)).
Proof.
  intros Hp Hest. unfold calculateQueryChunks.
  destruct (Z.leb_spec (estimatedDatapoints r p) MAX_DATAPOINTS); [lia|].
  rewrite Qceiling_quotient by done. rewrite estimatedDatapoints_Z by done.
  rewrite Z.opp_involutive, Z.div_div by (unfold MAX_DATAPOINTS; lia).
  do 2 f_equal. lia.
Qed.

Lemma Steps_count (d a b : Z) (cs : list Chunk) :
  0 < d -> Steps d a b cs -> Z.of_nat (length cs) = - ((- (b - a)) / d).
Proof.
  intros Hd. induction 1 as [a b Hlt Hle|a b cs Hlt Hs IH].
  - simpl. assert ((- (b - a)) / d = -1); [|lia].
    symmetry. apply Z.div_unique with (r := d - (b - a)); lia.
  - cbn [length]. rewrite Nat2Z.inj_succ, IH.
    replace (- (b - a)) with (- (b - (a + d)) + (-1) * d) by lia.
    rewrite Z.div_add by lia. lia.
Qed.

(** A plan that is returned is the walk, whatever the fuel was. *)
Lemma splitLoop_sound (d e : Z) :
  0 < d -> forall fuel c acc r, c < e ->
  splitLoop fuel d e c acc = Some r -> exists tail, r = acc ++ tail /\ Steps d c e tail.
Proof.
  intros Hd. induction fuel as [|fuel IH]; intros c acc r Hc; [done|].
  cbn [splitLoop]. destruct (Z.ltb_spec c e) as [_|]; [|lia].
  destruct (Z.le_gt_cases e (c + d)) as [Hlast|Hmore].
  - rewrite Z.min_r by lia.
    destruct (Z.gtb_spec e c) as [_|]; [|lia].
    destruct (Z.geb_spec e e) as [_|]; [|lia].
    intros [= <-]. exists [mkChunk c e]. split; [done|]. constructor; lia.
  - rewrite Z.min_l by lia.
    destruct (Z.gtb_spec (c + d) c) as [_|]; [|lia].
    destruct (Z.geb_spec (c + d) e) as [|_]; [lia|].
    intros (tail & -> & Hsteps)%IH; [|lia].
    exists (mkChunk c (c + d) :: tail). split; [by rewrite <- app_assoc|by constructor].
Qed.

Lemma buildChunks_sound (fuel : nat) (start end_ period : Z) (chunks : list Chunk) :
  start < end_ -> 0 < period ->
  buildChunks fuel start end_ period = Some chunks ->
  Steps (MAX_DATAPOINTS * period * 1000) start end_ chunks.
Proof.
  intros Hlt Hp. unfold buildChunks.
  destruct (splitLoop _ _ _ _ _) as [r|] eqn:E; [|done]. simpl. intros [= <-].
  apply splitLoop_sound in E as (tail & -> & Hsteps); [|unfold MAX_DATAPOINTS; lia|done].
  simpl. by rewrite (closeChunks_steps _ _ _ _ Hsteps).
Qed.

(** The plan of a query that needs several chunks. *)
Lemma queryPlan_sound (fuel : nat) (start end_ period : Z) (chunks : list Chunk) :
  0 < period ->
  queryPlan fuel start end_ period (end_ - start) = Some chunks ->
  (estimatedDatapoints (end_ - start) period <= MAX_DATAPOINTS
   /\ chunks = [mkChunk start end_])
  \/ (MAX_DATAPOINTS < estimatedDatapoints (end_ - start) period
      /\ start < end_
      /\ Steps (MAX_DATAPOINTS * period * 1000) start end_ chunks).
Proof.
  intros Hp. unfold queryPlan.
  destruct (Z.eqb_spec (calculateQueryChunks (end_ - start) period) 1) as [Hone|Hmany].
  - intros [= <-]. left. split; [|done]. by apply calculateQueryChunks_one.
  - intros Hbuild. right.
    assert (Hest : MAX_DATAPOINTS < estimatedDatapoints (end_ - start) period).
    { destruct (Z.le_gt_cases (estimatedDatapoints (end_ - start) period) MAX_DATAPOINTS)
        as [Hle|]; [|lia].
      exfalso. apply Hmany. by apply calculateQueryChunks_one. }
    assert (Hlt : start < end_).
    { destruct (Z.le_gt_cases end_ start) as [Hle|]; [|lia]. exfalso.
      assert (estimatedDatapoints (end_ - start) period <= MAX_DATAPOINTS); [|lia].
      apply estimatedDatapoints_le; [done|]. unfold MAX_DATAPOINTS. lia. }
    split_and!; [done|done|]. by apply (buildChunks_sound fuel).
Qed.

Lemma plan_length_steps (fuel : nat) (start end_ period : Z) (chunks : list Chunk) :
  0 < period ->
  queryPlan fuel start end_ period (end_ - start) = Some chunks ->
  Z.of_nat (length chunks) = calculateQueryChunks (end_ - start) period.
Proof.
  intros Hp Hplan.
  destruct (queryPlan_sound fuel start end_ period chunks Hp Hplan)
    as [[Hest ->]|(Hest & Hlt & Hsteps)].
  - simpl. symmetry. by apply calculateQueryChunks_one.
  - rewrite calculateQueryChunks_Z by done.
    apply Steps_count; [unfold MAX_DATAPOINTS; lia|done].
Qed.

Lemma queryPlan_enough (fuel : nat) (start end_ period : Z) :
  0 < period ->
  (splitBound (MAX_DATAPOINTS * period * 1000) end_ start <= fuel)%nat ->
  exists chunks, queryPlan fuel start end_ period (end_ - start) = Some chunks.
Proof.
  intros Hp Hfuel. unfold queryPlan.
  destruct (Z.eqb_spec (calculateQueryChunks (end_ - start) period) 1) as [Hone|Hmany];
    [by eexists|].
  assert (Hlt : start < end_).
  { destruct (Z.le_gt_cases end_ start) as [Hle|]; [|lia]. exfalso. apply Hmany.
    apply calculateQueryChunks_one; [done|].
    apply estimatedDatapoints_le; [done|]. unfold MAX_DATAPOINTS. lia. }
  destruct (buildChunks_steps start end_ period Hlt Hp) as (chunks & _ & Hrun).
  exists chunks. by apply Hrun.
Qed.



(** ** The batches *)

Lemma batches_partition (chunks : list Chunk) (n : nat) :
  forall j : nat,
  mjoin ((fun i => slice chunks i (i + MAX_CONCURRENT_REQUESTS)) <$> (nthBatchStart <$> seq j n))
  = take (n * MAX_CONCURRENT_REQUESTS) (drop (nthBatchStart j) chunks).
Proof.
  induction n as [|n IH]; intros j; [done|].
  rewrite take_batches, <- IH. cbn [seq]. rewrite !fmap_cons. cbn [mjoin list_join].
  f_equal. unfold slice. f_equal. lia.
Qed.

(** X3. [fetchChunksConcurrently] cuts the chunks into consecutive batches
    that, put together again, are the chunk list; no batch is empty and none
    has more than 5 chunks, so at most 5 fetches are in flight. *)
Theorem batches_cover_in_fives (chunks : list Chunk) :
  let batches :=
    (fun i => slice chunks i (i + MAX_CONCURRENT_REQUESTS)) <$> batchStarts (length chunks) in
  mjoin batches = chunks
  /\ Forall (fun batch => (1 <= length batch <= 5)%nat) batches.
Proof.
  intros batches. subst batches. split.
  - unfold batchStarts. by rewrite batches_partition, take_all_batches.
  - apply Forall_fmap, Forall_forall. intros i [Hlt Hmod]%batchStarts_spec. simpl.
    unfold slice. rewrite length_take, length_drop. unfold MAX_CONCURRENT_REQUESTS. lia.
Qed.

(** ** Every run of a chunk fetch *)

Section RetryShape.
Context {Val Src : Type}.
Variable send :
  GetMetricDataCommand -> Src -> (JsError + GetMetricDataOutput Val) * Src.

(** Whatever the provider does, a fetch is a number of throttled attempts,
    within the retries left, and one attempt that ends it. *)
Lemma fetchChunkWithRetry_from_shape (instanceId : string) (chunkStart chunkEnd period : Z) :
  let command := mkCommand instanceId chunkStart chunkEnd period in
  forall (depth : nat) (retryCount : Z) (w : World Src),
  0 <= retryCount <= MAX_RETRIES -> MAX_RETRIES <= retryCount + Z.of_nat depth ->
  exists (errs : list JsError) (r : JsError + GetMetricDataOutput Val) (s' : Src),
    retryCount + Z.of_nat (length errs) <= MAX_RETRIES
    /\ answers send (S (length errs)) command (provider w) = ((inl <$> errs) ++ [r], s')
    /\ Forall (fun e => isThrottling e = true) errs
    /\ match r with
       | inl e => isThrottling e = false \/ retryCount + Z.of_nat (length errs) = MAX_RETRIES
       | inr _ => True
       end
    /\ fetchChunkWithRetry_from send depth instanceId chunkStart chunkEnd period retryCount w
       = (settles r,
          mkWorld s' (history w ++ failedAttempts command (length errs) retryCount
                        ++ [Sent command])).
Proof.
  intros command. induction depth as [|depth IH]; intros rc w Hrc Hdepth.
  - assert (rc = MAX_RETRIES) as -> by lia.
    destruct (send command (provider w)) as [r s'] eqn:Hsend.
    exists [], r, s'.
    assert (Hans : answers send 1 command (provider w) = ([r], s'))
      by (simpl; by rewrite Hsend).
    assert (Hend : match r with
                   | inl e => isThrottling e = false \/ MAX_RETRIES + Z.of_nat 0 = MAX_RETRIES
                   | inr _ => True
                   end) by (destruct r; [right; lia|done]).
    split_and!; [simpl; lia|done|done|done|].
    by apply (fetchChunkWithRetry_from_run send instanceId chunkStart chunkEnd period [] r).
  - destruct (send command (provider w)) as [r s1] eqn:Hsend.
    destruct r as [e|response].
    + destruct (isThrottling e && (rc <? MAX_RETRIES)) eqn:Hretry.
      * apply andb_true_iff in Hretry as [He Hlt%Z.ltb_lt].
        set (w2 := record (Slept (BASE_BACKOFF_MS * 2 ^ rc))
                     (mkWorld s1 (history w ++ [Sent command]))).
        destruct (IH (rc + 1) w2) as (errs & r & s' & Hlen & Hans & Hthr & Hend & Hrun);
          [lia|lia|].
        exists (e :: errs), r, s'. cbn [length]. split_and!.
        -- lia.
        -- rewrite answers_S, Hsend. cbn [fst snd]. subst w2. cbn [provider record] in Hans.
           by rewrite Hans.
        -- by constructor.
        -- destruct r; [|done]. destruct Hend; [by left|right; lia].
        -- rewrite fetchChunkWithRetry_from_step. fold command. rewrite Hsend. cbn [fst snd].
           rewrite He. destruct (Z.ltb_spec rc MAX_RETRIES); [|lia]. simpl andb. cbv iota zeta.
           fold w2. rewrite Hrun. subst w2. simpl. unfold BASE_BACKOFF_MS.
           by rewrite <- !app_assoc.
      * exists [], (inl e), s1. split_and!; [simpl; lia| |done| |].
        -- simpl. by rewrite Hsend.
        -- apply andb_false_iff in Hretry as [->|Hge%Z.ltb_ge]; [by left|right; simpl; lia].
        -- rewrite fetchChunkWithRetry_from_step. fold command. rewrite Hsend. cbn [fst snd].
           by rewrite Hretry.
    + exists [], (inr response), s1. split_and!; [simpl; lia| |done|done|].
      * simpl. by rewrite Hsend.
      * rewrite fetchChunkWithRetry_from_step. fold command. by rewrite Hsend.
Qed.

(** The calls and delays of a fetch. *)
Lemma fetchChunkWithRetry_trace (instanceId : string) (chunkStart chunkEnd period : Z)
    (w : World Src) :
  let command := mkCommand instanceId chunkStart chunkEnd period in
  let run := fetchChunkWithRetry send instanceId chunkStart chunkEnd period w in
  exists (k : nat) (trace : list Event),
    (k <= 3)%nat
    /\ history run.2 = history w ++ trace
    /\ sentCommands trace = replicate (S k) command
    /\ delays trace = take k [200; 400; 800]
    /\ provider run.2 = (answers send (S k) command (provider w)).2
    /\ exists r, (answers send (S k) command (provider w)).1 !! k = Some r
                 /\ run.1 = settles r.
Proof.
  intros command run.
  destruct (fetchChunkWithRetry_from_shape instanceId chunkStart chunkEnd period
              (Z.to_nat MAX_RETRIES) 0 w)
    as (errs & r & s' & Hlen & Hans & Hthr & Hend & Hrun);
    [unfold MAX_RETRIES; lia|unfold MAX_RETRIES; lia|].
  fold command in Hans, Hrun. unfold MAX_RETRIES in Hlen.
  exists (length errs), (failedAttempts command (length errs) 0 ++ [Sent command]).
  subst run. unfold fetchChunkWithRetry. rewrite Hrun, Hans. cbn [fst snd history provider].
  split_and!.
  - lia.
  - done.
  - rewrite sentCommands_app, sentCommands_failedAttempts.
    change (sentCommands [Sent command]) with [command]. by rewrite <- replicate_S_end.
  - rewrite delays_app, delays_failedAttempts by lia.
    change (delays [Sent command]) with (@nil Z). by rewrite app_nil_r.
  - done.
  - exists r. split; [|done].
    rewrite lookup_app_r by (by rewrite length_fmap).
    by rewrite length_fmap, Nat.sub_diag.
Qed.

(** X2. Against any provider a chunk fetch makes at least one and at most
    four calls, all of them with the same command; the delays between them
    are the first of 200, 400 and 800 ms; it never ends pending; and it
    settles on the provider's answer to the last call: rejected with that
    very error, or fulfilled with the first result of that response. *)
Theorem every_fetch_is_bounded (instanceId : string) (chunkStart chunkEnd period : Z)
    (w : World Src) :
  let command := mkCommand instanceId chunkStart chunkEnd period in
  let run := fetchChunkWithRetry send instanceId chunkStart chunkEnd period w in
  exists (k : nat) (trace : list Event),
    (k <= 3)%nat
    /\ history run.2 = history w ++ trace
    /\ sentCommands trace = replicate (S k) command
    /\ delays trace = take k [200; 400; 800]
    /\ run.1 <> Pending
    /\ (forall e, run.1 = Rejected e ->
          (answers send (S k) command (provider w)).1 !! k = Some (inl e))
    /\ (forall result, run.1 = Fulfilled result ->
          exists response,
            (answers send (S k) command (provider w)).1 !! k = Some (inr response)
            /\ result = firstResult response).
Proof.
  intros command run.
  destruct (fetchChunkWithRetry_trace instanceId chunkStart chunkEnd period w)
    as (k & trace & Hk & Hhist & Hsent & Hdelays & _ & r & Hr & Hrun).
  fold command run in Hhist, Hsent, Hr, Hrun.
  exists k, trace. rewrite Hrun, Hr. split_and!; try done.
  - by destruct r.
  - intros e. destruct r; simpl; [by intros [= ->]|done].
  - intros result. destruct r as [e|response]; simpl; [done|]. intros [= <-].
    by exists response.
Qed.

End RetryShape.

(** ** The calls of a query *)

Section CallFacts.
Context {Val Src : Type}.
Variable send :
  GetMetricDataCommand -> Src -> (JsError + GetMetricDataOutput Val) * Src.
Variable settledAt : Chunk -> nat.
Variable formatTime : Z -> string.

Lemma runAll_cons {A} (p : M Src A) (ps : list (M Src A)) (w : World Src) :
  runAll (p :: ps) w = ((p w).1 :: (runAll ps (p w).2).1, (runAll ps (p w).2).2).
Proof. simpl. destruct (p w) as [o w1]. simpl. by destruct (runAll ps w1). Qed.

Lemma runAll_calls (instanceId : string) (period : Z) (batch : list Chunk) (w : World Src) :
  exists trace,
    history (runAll (batchFetches send instanceId period batch) w).2 = history w ++ trace
    /\ Forall (fun command => exists chunk,
                 chunk ∈ batch /\ command = commandOf instanceId period chunk)
         (sentCommands trace)
    /\ (length (sentCommands trace) <= 4 * length batch)%nat.
Proof.
  revert w. induction batch as [|chunk batch IH]; intros w.
  - exists []. by rewrite app_nil_r.
  - unfold batchFetches. rewrite fmap_cons, runAll_cons. cbn [snd].
    fold (batchFetches send instanceId period batch).
    destruct (fetchChunkWithRetry_trace send instanceId (c_start chunk) (c_end chunk) period w)
      as (k & tr1 & Hk & Hhist & Hsent & _).
    destruct (IH (fetchChunkWithRetry send instanceId (c_start chunk) (c_end chunk) period w).2)
      as (tr2 & Hhist2 & Hcmds & Hcount).
    exists (tr1 ++ tr2). split_and!.
    + by rewrite Hhist2, Hhist, app_assoc.
    + rewrite sentCommands_app, Hsent. apply Forall_app. split.
      * apply Forall_replicate. exists chunk. split; [left|done].
      * eapply Forall_impl; [exact Hcmds|]. intros c (ch & Hin & ->).
        exists ch. split; [by right|done].
    + rewrite sentCommands_app, length_app, Hsent, length_replicate. cbn [length]. lia.
Qed.

Lemma fetchBatches_calls (instanceId : string) (chunks : list Chunk) (period : Z) (n : nat) :
  forall (j : nat) (acc : list (MetricDataResult Val)) (w : World Src),
  exists trace,
    history (fetchBatches send settledAt instanceId chunks period
               (nthBatchStart <$> seq j n) acc w).2 = history w ++ trace
    /\ Forall (fun command => exists chunk,
                 chunk ∈ chunks /\ command = commandOf instanceId period chunk)
         (sentCommands trace)
    /\ (length (sentCommands trace)
        <= 4 * length (take (n * MAX_CONCURRENT_REQUESTS) (drop (nthBatchStart j) chunks)))%nat.
Proof.
  induction n as [|n IH]; intros j acc w.
  - exists []. by rewrite app_nil_r.
  - cbn [seq]. rewrite fmap_cons, fetchBatches_step. cbv zeta.
    set (batch := take MAX_CONCURRENT_REQUESTS (drop (nthBatchStart j) chunks)).
    destruct (runAll_calls instanceId period batch w) as (tr1 & Hhist1 & Hcmds1 & Hcount1).
    assert (Hcmds1' : Forall (fun command => exists chunk,
                        chunk ∈ chunks /\ command = commandOf instanceId period chunk)
                        (sentCommands tr1)).
    { eapply Forall_impl; [exact Hcmds1|]. intros c (ch & Hin & ->). exists ch.
      split; [|done]. by apply subseteq_take, subseteq_drop in Hin. }
    assert (Hlen : (length batch
                    <= length (take (S n * MAX_CONCURRENT_REQUESTS)
                                 (drop (nthBatchStart j) chunks)))%nat).
    { rewrite take_batches, length_app. fold batch. lia. }
    destruct (runAll (batchFetches send instanceId period batch) w) as [os w1].
    cbn [fst snd] in *.
    destruct (settleAll (settledAt <$> batch) os) as [brs|e|].
    + destruct (IH (S j) (acc ++ brs) w1) as (tr2 & Hhist2 & Hcmds2 & Hcount2).
      exists (tr1 ++ tr2). split_and!.
      * by rewrite Hhist2, Hhist1, app_assoc.
      * rewrite sentCommands_app. by apply Forall_app.
      * rewrite sentCommands_app, length_app, take_batches, length_app. fold batch. lia.
    + exists tr1. split_and!; [done|done|lia].
    + exists tr1. split_and!; [done|done|lia].
Qed.

Lemma fetchChunksConcurrently_calls (instanceId : string) (chunks : list Chunk) (period : Z)
    (w : World Src) :
  exists trace,
    history (fetchChunksConcurrently send settledAt instanceId chunks period w).2
    = history w ++ trace
    /\ Forall (fun command => exists chunk,
                 chunk ∈ chunks /\ command = commandOf instanceId period chunk)
         (sentCommands trace)
    /\ (length (sentCommands trace) <= 4 * length chunks)%nat.
Proof.
  unfold fetchChunksConcurrently, batchStarts.
  destruct (fetchBatches_calls instanceId chunks period
              (Nat.div (length chunks + MAX_CONCURRENT_REQUESTS - 1) MAX_CONCURRENT_REQUESTS)
              0%nat [] w) as (trace & Hhist & Hcmds & Hcount).
  rewrite take_all_batches in Hcount. by exists trace.
Qed.

Lemma fetchMetricsWithPeriod_calls (fuel : nat) (instanceId : string)
    (start end_ period : Z) (w : World Src) :
  0 < period ->
  exists trace,
    history (fetchMetricsWithPeriod send settledAt fuel instanceId start end_ period
               (end_ - start) w).2 = history w ++ trace
    /\ Forall (plannedCall instanceId start end_ period) (sentCommands trace)
    /\ Z.of_nat (length (sentCommands trace)) <= 4 * calculateQueryChunks (end_ - start) period.
Proof.
  intros Hp. unfold fetchMetricsWithPeriod.
  destruct (Z.eqb_spec (calculateQueryChunks (end_ - start) period) 1) as [Hone|Hmany].
  - unfold mbind, M_bind.
    destruct (fetchChunkWithRetry_trace send instanceId start end_ period w)
      as (k & trace & Hk & Hhist & Hsent & _).
    exists trace. split_and!.
    + by destruct (fetchChunkWithRetry send instanceId start end_ period w) as [[r|e|] w1].
    + rewrite Hsent. apply Forall_replicate. unfold plannedCall. cbn.
      split_and!; [done|done| |lia].
      apply chunkDatapoints_le; [done|]. cbn.
      apply calculateQueryChunks_one in Hone; [|done].
      by apply estimatedDatapoints_le in Hone.
    + rewrite Hsent, length_replicate, Hone. lia.
  - destruct (buildChunks fuel start end_ period) as [chunks|] eqn:Hbuild.
    + assert (Hplan : queryPlan fuel start end_ period (end_ - start) = Some chunks).
      { unfold queryPlan. by destruct (Z.eqb_spec (calculateQueryChunks (end_ - start) period) 1). }
      destruct (queryPlan_sound fuel start end_ period chunks Hp Hplan)
        as [[Hest _]|(Hest & Hlt & Hsteps)].
      { exfalso. apply Hmany. by apply calculateQueryChunks_one. }
      destruct (fetchChunksConcurrently_calls instanceId chunks period w)
        as (trace & Hhist & Hcmds & Hcount).
      exists trace. split_and!; [done| |].
      * assert (Hd : 0 < MAX_DATAPOINTS * period * 1000) by (unfold MAX_DATAPOINTS; lia).
        pose proof (Steps_tiles _ _ _ _ Hd Hsteps) as Htiles.
        pose proof (Tiles_within _ _ _ Htiles) as Hin.
        pose proof (Tiles_nonempty _ _ _ Htiles) as Hne.
        pose proof (Steps_length _ _ _ _ Hsteps) as Hlen.
        rewrite Forall_forall in Hin, Hne, Hlen.
        eapply Forall_impl; [exact Hcmds|]. intros c (ch & Hch & ->).
        unfold plannedCall, commandOf. cbn. split_and!; [done|done| |].
        -- apply chunkDatapoints_le; [done|]. cbn. apply (Hlen ch Hch).
        -- intros _. specialize (Hin ch Hch). specialize (Hne ch Hch). simpl in Hin. lia.
      * rewrite <- (plan_length_steps fuel start end_ period chunks Hp Hplan). lia.
    + exists []. rewrite app_nil_r. split_and!; [done|done|].
      assert (Hest : MAX_DATAPOINTS < estimatedDatapoints (end_ - start) period).
      { destruct (Z.le_gt_cases (estimatedDatapoints (end_ - start) period) MAX_DATAPOINTS)
          as [Hle|]; [|lia].
        exfalso. apply Hmany. by apply calculateQueryChunks_one. }
      rewrite calculateQueryChunks_Z by done. cbn [sentCommands omap list_omap length].
      assert (Hneg : (- (end_ - start)) / (MAX_DATAPOINTS * period * 1000) < 0); [|lia].
      apply Z.div_lt_upper_bound; [unfold MAX_DATAPOINTS; lia|].
      destruct (Z.le_gt_cases (end_ - start) 0) as [Hle|]; [|lia]. exfalso.
      assert (estimatedDatapoints (end_ - start) period <= MAX_DATAPOINTS); [|lia].
      apply estimatedDatapoints_le; [done|]. unfold MAX_DATAPOINTS. lia.
Qed.

Lemma calculateQueryChunks_positive (r p : Z) : 0 < p -> 1 <= calculateQueryChunks r p.
Proof.
  intros Hp.
  destruct (Z.le_gt_cases (estimatedDatapoints r p) MAX_DATAPOINTS) as [Hle|Hgt].
  - apply calculateQueryChunks_one in Hle; [lia|done].
  - rewrite calculateQueryChunks_Z by done.
    assert ((- r) / (MAX_DATAPOINTS * p * 1000) < 0); [|lia].
    apply Z.div_lt_upper_bound; [unfold MAX_DATAPOINTS; lia|].
    destruct (Z.le_gt_cases r 0) as [Hr|]; [|lia]. exfalso.
    assert (estimatedDatapoints r p <= MAX_DATAPOINTS); [|lia].
    apply estimatedDatapoints_le; [done|]. unfold MAX_DATAPOINTS. lia.
Qed.



End CallFacts.

(** ** Seconds *)

Lemma roundedTs_near (t : Z) : t - 500 < roundedTs t <= t + 500.
Proof.
  rewrite roundedTs_Z. pose proof (Z.div_mod (t + 500) 1000 ltac:(lia)).
  pose proof (Z.mod_pos_bound (t + 500) 1000 ltac:(lia)). lia.
Qed.

Lemma roundedTs_collide (t1 t2 : Z) : roundedTs t1 = roundedTs t2 -> Z.abs (t1 - t2) < 1000.
Proof.
  intros E. pose proof (roundedTs_near t1). pose proof (roundedTs_near t2). lia.
Qed.

Section DedupFacts.
Context {Val : Type}.
Implicit Types (dp : DataPoint Val) (l : list (DataPoint Val)).

Lemma deltas_cons a b l :
  deltas (a :: b :: l) = (dp_timestamp b - dp_timestamp a) :: deltas (b :: l).
Proof. done. Qed.

Lemma gapsOf_cons a b l :
  gapsOf (a :: b :: l)
  = let deltaSec := (inject_Z (dp_timestamp b - dp_timestamp a) / 1000)%Q in
    if negb (Qle_bool deltaSec 0) then deltaSec :: gapsOf (b :: l) else gapsOf (b :: l).
Proof. done. Qed.

Lemma gapsOf_sorted l :
  StronglySorted before l -> gapsOf l = (fun d => (inject_Z d / 1000)%Q) <$> deltas l.
Proof.
  induction 1 as [|a l Hl IH Ha]; [done|]. destruct l as [|b l]; [done|].
  rewrite gapsOf_cons, deltas_cons, fmap_cons, <- IH. cbv zeta.
  apply Forall_cons in Ha as [Hab _]. unfold before in Hab.
  replace (Qle_bool (inject_Z (dp_timestamp b - dp_timestamp a) / 1000) 0) with false; [done|].
  symmetry. apply not_true_iff_false. rewrite Qle_bool_iff.
  unfold Qle, Qdiv, Qmult, Qinv, inject_Z. simpl. lia.
Qed.

Lemma deltas_length l : length (deltas l) = (length l - 1)%nat.
Proof.
  induction l as [|a l IH]; [done|]. destruct l as [|b l]; [done|].
  rewrite deltas_cons. cbn [length] in *. lia.
Qed.

Lemma deltas_Forall (P : Z -> Prop) l :
  Forall P (deltas l) <->
  forall (i : nat) a b, l !! i = Some a -> l !! S i = Some b ->
    P (dp_timestamp b - dp_timestamp a).
Proof.
  induction l as [|a l IH]; [by split; [intros _ []|constructor]|].
  destruct l as [|b l].
  - split; [|constructor]. intros _ [|i] ???; done.
  - rewrite deltas_cons, Forall_cons, IH. split.
    + intros [Hab Hrest] [|i] x y Hx Hy.
      * simpl in Hx, Hy. by injection Hx as <-; injection Hy as <-.
      * by apply (Hrest i).
    + intros H. split; [by apply (H 0%nat)|]. intros i x y Hx Hy. by apply (H (S i)).
Qed.

Lemma Math_min_ge (bound first : Q) (others : list Q) :
  (bound <= Math_min first others)%Q <-> Forall (fun q => (bound <= q)%Q) (first :: others).
Proof.
  unfold Math_min. revert first. induction others as [|q others IH]; intros first; simpl.
  - split; [by repeat constructor|by intros [? _]%Forall_cons].
  - rewrite Q.min_glb_iff, IH, !Forall_cons. tauto.
Qed.

Lemma seconds_ge_240 (d : Z) : (240 <= inject_Z d / 1000)%Q <-> 240000 <= d.
Proof. unfold Qle, Qdiv, Qmult, Qinv, inject_Z. simpl. lia. Qed.

(** The label of the gap detection on points in ascending order. *)
Lemma inferResolution_sorted l :
  StronglySorted before l ->
  inferResolution None "1m" l = Some "5m"%string <->
  (2 <= length l)%nat /\ Forall (fun d => 240000 <= d) (deltas l).
Proof.
  intros Hsorted. rewrite inferResolution_fires. unfold gapDetectionFires.
  rewrite (gapsOf_sorted l Hsorted). pose proof (deltas_length l) as Hlen.
  cbn [bool_decide decide_rel andb String.eqb]. rewrite bool_decide_eq_true_2 by done.
  cbn [andb Ascii.eqb Bool.eqb].
  destruct (Nat.ltb_spec 1 (length l)) as [Hlong|Hshort]; cbn [andb].
  - destruct (deltas l) as [|d ds]; [simpl in Hlen; lia|]. rewrite fmap_cons.
    assert (Hiff : Forall (fun q => (240 <= q)%Q)
                     ((inject_Z d / 1000)%Q :: ((fun d => (inject_Z d / 1000)%Q) <$> ds))
                   <-> Forall (fun d => 240000 <= d) (d :: ds)).
    { rewrite !Forall_cons, Forall_fmap, seconds_ge_240.
      apply and_iff_compat_l, Forall_proper; [|done]. intros x. apply seconds_ge_240. }
    destruct (Qle_bool 240 _) eqn:Hmin.
    + split; [|done]. intros _. split; [lia|].
      by apply Qle_bool_iff, Math_min_ge, Hiff in Hmin.
    + split; [done|]. intros [_ Hall]. exfalso.
      apply not_true_iff_false in Hmin. by apply Hmin, Qle_bool_iff, Math_min_ge, Hiff.
  - split; [done|lia].
Qed.

End DedupFacts.

Section AggregateFacts.
Context {Val : Type}.
Variable formatTime : Z -> string.
Implicit Types (dp : DataPoint Val) (l : list (DataPoint Val)).

Lemma deltas_formatPoint l (P : Z -> Prop) :
  Forall P (deltas l) <->
  forall (i : nat) p q,
    (formatPoint formatTime <$> l) !! i = Some p ->
    (formatPoint formatTime <$> l) !! S i = Some q ->
    P (timestamp q - timestamp p).
Proof.
  rewrite deltas_Forall. split.
  - intros H i p q. rewrite !list_lookup_fmap.
    destruct (l !! i) as [a|] eqn:Ha; [|done]. destruct (l !! S i) as [b|] eqn:Hb; [|done].
    intros [= <-] [= <-]. by apply (H i).
  - intros H i a b Ha Hb. apply (H i (formatPoint formatTime a) (formatPoint formatTime b)).
    + by rewrite list_lookup_fmap, Ha.
    + by rewrite list_lookup_fmap, Hb.
Qed.

(** X6. Without a re-fetch, a "1m" response is labelled "5m" exactly when
    it has at least two points and every two neighbouring points are at
    least 240 000 ms apart; otherwise it carries no label. *)
Theorem label_iff_all_gaps_240_seconds (start end_ : Z) (rs : list (MetricDataResult Val)) :
  let response := assemble formatTime start end_ "1m" None rs in
  (adjustedInterval response = Some "5m"%string <->
   (2 <= length (data response))%nat
   /\ forall (i : nat) p q,
        data response !! i = Some p -> data response !! S i = Some q ->
        240000 <= timestamp q - timestamp p)
  /\ (adjustedInterval response = Some "5m"%string \/ adjustedInterval response = None).
Proof.
  intros response. subst response. unfold assemble. cbn [adjustedInterval data].
  destruct (uniquePoints_sorted start end_ rs) as [Hsorted _]. split.
  - rewrite (inferResolution_sorted _ Hsorted), length_fmap.
    by rewrite (deltas_formatPoint _ (fun d => 240000 <= d)).
  - rewrite inferResolution_fires. destruct (gapDetectionFires _ _ _); auto.
Qed.

Lemma dedupFrom_unique (seen : gset Z) l :
  NoDup (secondOf <$> l) -> (forall dp, dp ∈ l -> secondOf dp ∉ seen) ->
  dedupFrom seen l = l.
Proof.
  revert seen. induction l as [|dp l IH]; intros seen Hnd Hseen; [done|].
  rewrite fmap_cons in Hnd. apply NoDup_cons in Hnd as [Hdp Hnd]. cbn [dedupFrom]. cbv zeta.
  rewrite (bool_decide_eq_false_2 (secondOf dp ∈ seen)) by (apply Hseen; left). f_equal.
  apply IH; [done|]. intros dp' Hin.
  intros [Heq%elem_of_singleton|Hs]%elem_of_union.
  - apply Hdp. rewrite <- Heq. by apply list_elem_of_fmap_2.
  - apply (Hseen dp'); [by right|done].
Qed.

Lemma sortByTimestamp_sorted_id l : StronglySorted before l -> sortByTimestamp l = l.
Proof.
  induction 1 as [|a l Hl IH Ha]; [done|]. simpl. fold (sortByTimestamp l). rewrite IH.
  destruct l as [|b l]; [done|]. simpl. apply Forall_cons in Ha as [Hab _].
  unfold before in Hab. by destruct (Z.leb_spec (dp_timestamp a - dp_timestamp b) 0); [|lia].
Qed.

Lemma collect_asResult (start end_ : Z) l :
  Forall (fun dp => start - 1000 <= dp_timestamp dp <= end_ + 1000) l ->
  collect start end_ [asResult l] = l.
Proof.
  intros Hin. unfold collect. simpl. rewrite app_nil_r. unfold collectResult, asResult. simpl.
  induction Hin as [|dp l Hdp Hl IH]; [done|]. csimpl. rewrite IH.
  destruct (Z.leb_spec (start - 1000) (dp_timestamp dp)); [|lia].
  destruct (Z.leb_spec (dp_timestamp dp) (end_ + 1000)); [|lia]. simpl. by destruct dp.
Qed.

Lemma uniquePoints_in_range (start end_ : Z) (rs : list (MetricDataResult Val)) :
  Forall (fun dp => start - 1000 <= dp_timestamp dp <= end_ + 1000)
    (uniquePoints start end_ rs).
Proof.
  apply Forall_forall. intros dp Hdp%uniquePoints_subset.
  by apply collect_elem in Hdp as (result & i & _ & _ & _ & Hrange).
Qed.

(** X7. Aggregating again what was aggregated changes nothing: the points
    returned for some results, taken as the samples of one result for the
    same range, are returned as they are. *)
Theorem aggregation_is_idempotent (start end_ : Z) (rs : list (MetricDataResult Val)) :
  uniquePoints start end_ [asResult (uniquePoints start end_ rs)]
  = uniquePoints start end_ rs.
Proof.
  destruct (uniquePoints_sorted start end_ rs) as [Hsorted Hnd].
  unfold uniquePoints at 1. rewrite collect_asResult by apply uniquePoints_in_range.
  rewrite dedupFrom_unique; [by apply sortByTimestamp_sorted_id|done|].
  intros dp _. apply not_elem_of_empty.
Qed.

(** X8. When no two kept samples fall in the same second, the points do not
    depend on the order in which the samples came: results whose kept
    samples are the same up to order give the same points. *)
Theorem points_do_not_depend_on_sample_order (start end_ : Z)
    (rs1 rs2 : list (MetricDataResult Val)) :
  collect start end_ rs1 ≡ₚ collect start end_ rs2 ->
  NoDup (secondOf <$> collect start end_ rs1) ->
  uniquePoints start end_ rs1 = uniquePoints start end_ rs2.
Proof.
  intros Hperm Hnd.
  assert (Hnd2 : NoDup (secondOf <$> collect start end_ rs2)) by (by rewrite <- Hperm).
  destruct (uniquePoints_sorted start end_ rs1) as [Hs1 _].
  destruct (uniquePoints_sorted start end_ rs2) as [Hs2 _].
  apply (StronglySorted_unique_strong before); [|done|done|].
  - unfold before. intros. lia.
  - unfold uniquePoints. rewrite !sortByTimestamp_perm.
    rewrite !dedupFrom_unique; try done; intros dp _; apply not_elem_of_empty.
Qed.

(** X9. No kept sample goes without a point: for every sample that has a
    value and a timestamp within one second of the range, a point of the
    same rounded second is returned, less than one second away from it. *)
Theorem every_kept_sample_has_a_point (start end_ : Z) (rs : list (MetricDataResult Val))
    (dp : DataPoint Val) :
  dp ∈ collect start end_ rs ->
  exists p, p ∈ uniquePoints start end_ rs
    /\ secondOf p = secondOf dp
    /\ Z.abs (dp_timestamp p - dp_timestamp dp) < 1000.
Proof.
  intros Hin.
  assert (Hk : dp ∈ filter (fun x => secondOf x = secondOf dp) (collect start end_ rs))
    by (by apply list_elem_of_filter).
  pose proof (uniquePoints_second start end_ rs (secondOf dp)) as Hsec.
  destruct (filter _ (collect start end_ rs)) as [|p rest]; [by apply elem_of_nil in Hk|].
  simpl in Hsec. rewrite take_0 in Hsec.
  assert (Hp : p ∈ filter (fun x => secondOf x = secondOf dp) (uniquePoints start end_ rs))
    by (rewrite Hsec; left).
  apply list_elem_of_filter in Hp as [Hkey Hp]. exists p. split_and!; [done|done|].
  by apply roundedTs_collide.
Qed.

End AggregateFacts.

Section CpuRouteFacts.
Variable trim : string -> string.
Variable parseInt : string -> option Z.
Variable isoDate : Z -> string.

Lemma INTERVALS_periods (interval : string) :
  interval ∈ INTERVALS -> exists period, PERIOD_MAP interval = Some period /\ 60 <= period.
Proof.
  unfold INTERVALS. rewrite !elem_of_cons, elem_of_nil.
  intros [->|[->|[->|[->|[]]]]]; eexists; (split; [reflexivity|lia]).
Qed.

Lemma timeBefore_true (a : option Z) (b : Z) :
  timeBefore a b = true <-> exists t, a = Some t /\ t < b.
Proof.
  destruct a as [t|]; simpl; [|naive_solver]. rewrite Z.ltb_lt. naive_solver.
Qed.

Lemma timeBefore_false (t b : Z) : timeBefore (Some t) b = false <-> b <= t.
Proof. simpl. by rewrite Z.ltb_ge. Qed.

(** What the retention rules guarantee. *)
Lemma applyRetention_spec (nowMs : Z) (identifier : string) (start end_ : option Z)
    (interval : string) (requested : option Z)
    (identifier' : string) (start' end' : option Z) (interval' : string)
    (warning : option string) (requested' : option Z) :
  applyRetention isoDate nowMs identifier start end_ interval requested
  = Proceed identifier' start' end' interval' warning requested' ->
  (identifier' = identifier /\ end' = end_ /\ requested' = requested)
  /\ (forall s, start' = Some s -> nowMs - RETENTION_1H_MS <= s)
  /\ (interval' = "1m"%string -> forall s, start' = Some s -> nowMs - RETENTION_1M_MS <= s)
  /\ (interval' = interval \/ (interval = "1m" /\ interval' = "1h")%string)
  /\ (warning = None -> start' = start).
Proof.
  unfold applyRetention. cbv zeta.
  destruct (timeBefore start (nowMs - RETENTION_1H_MS)) eqn:Hold.
  - unfold newDate. destruct (Z.abs _ <=? _); [|done]. cbn [fmap option_fmap option_map].
    intros [= <- <- <- <- <- <-]. split_and!; [done|done|done| | | |done].
    + by intros s [= <-].
    + destruct (Z.ltb_spec (nowMs - RETENTION_1H_MS) (nowMs - RETENTION_1M_MS)) as [_|Hle];
        [|unfold RETENTION_1H_MS, RETENTION_1M_MS in Hle; lia].
      cbn [andb]. by destruct (String.eqb_spec interval "1m") as [->|Hi].
    + destruct (_ && _) eqn:Hforce; [|by left].
      apply andb_true_iff in Hforce as [_ ->%String.eqb_eq]. by right.
  - intros [= <- <- <- <- <- <-]. split_and!; [done|done|done| | | |done].
    + intros s ->. by apply timeBefore_false in Hold.
    + destruct (timeBefore _ _ && _) eqn:Hforce; [done|]. intros Hi s Hs.
      rewrite Hi, andb_true_r, Hs in Hforce. by apply timeBefore_false in Hforce.
    + destruct (timeBefore _ _ && _) eqn:Hforce; [|by left].
      apply andb_true_iff in Hforce as [_ ->%String.eqb_eq]. by right.
Qed.

Ltac use_retention H :=
  let Hfields := fresh "Hfields" in
  pose proof (applyRetention_spec _ _ _ _ _ _ _ _ _ _ _ _ H) as [(-> & -> & ->) _].

(** The requests that get past the checks. *)
Lemma prepareCpuQuery_proceeds (nowAtPreset nowMs : Z)
    (instanceIdParam timePeriod startTimeParam endTimeParam intervalParam : option string)
    (identifier : string) (start end_ : option Z) (interval : string)
    (warning : option string) (requested : option Z) :
  prepareCpuQuery trim parseInt isoDate nowAtPreset nowMs instanceIdParam timePeriod
    startTimeParam endTimeParam intervalParam
  = Proceed identifier start end_ interval warning requested ->
  let asked := if truthy intervalParam then default "" intervalParam else "5m"%string in
  instanceIdParam ≫= (fun s => Some (trim s)) = Some identifier
  /\ identifier <> ""%string
  /\ asked ∈ INTERVALS
  /\ exists start0,
       applyRetention isoDate nowMs identifier start0 end_ asked requested
       = Proceed identifier start end_ interval warning requested
       /\ match requested with
          | Some startMs =>
              start0 = newDate startMs
              /\ exists endMs, end_ = newDate endMs /\ startMs < endMs
                 /\ parseInt (default "" startTimeParam) = Some startMs
                 /\ parseInt (default "" endTimeParam) = Some endMs
          | None =>
              exists rangeMs, RANGE_MS (default "" timePeriod) = Some rangeMs
                /\ end_ = newDate (nowAtPreset - 300000)
                /\ start0 = end_ ≫= fun t => newDate (t - rangeMs)
          end.
Proof.
  intros Hrun. intros asked. unfold prepareCpuQuery in Hrun. cbv zeta in Hrun. fold asked in Hrun.
  destruct instanceIdParam as [raw|]; [|done]. cbn [fmap option_fmap option_map] in Hrun.
  destruct (String.eqb_spec (trim raw) "") as [|Hne]; [done|].
  destruct (bool_decide_reflect (asked ∈ INTERVALS)) as [Hasked|]; [|done]. cbn [negb] in Hrun.
  assert (Hid : identifier = trim raw /\ exists start0,
    applyRetention isoDate nowMs (trim raw) start0 end_ asked requested
    = Proceed (trim raw) start end_ interval warning requested
    /\ match requested with
       | Some startMs =>
           start0 = newDate startMs
           /\ exists endMs, end_ = newDate endMs /\ startMs < endMs
              /\ parseInt (default "" startTimeParam) = Some startMs
              /\ parseInt (default "" endTimeParam) = Some endMs
       | None =>
           exists rangeMs, RANGE_MS (default "" timePeriod) = Some rangeMs
             /\ end_ = newDate (nowAtPreset - 300000)
             /\ start0 = end_ ≫= fun t => newDate (t - rangeMs)
       end).
  { destruct (truthy startTimeParam && truthy endTimeParam).
    - destruct (parseInt (default "" startTimeParam)) as [startMs|] eqn:Hs; [|done].
      destruct (parseInt (default "" endTimeParam)) as [endMs|] eqn:He; [|done].
      destruct (Z.geb_spec startMs endMs) as [|Hlt]; [done|].
      use_retention Hrun.
      split; [done|]. exists (newDate startMs). split; [done|]. split; [done|].
      by exists endMs.
    - destruct (truthy timePeriod); [|done].
      destruct (bool_decide_reflect (default "" timePeriod ∈ TIME_PERIODS)) as [Htp|]; [|done].
      cbn [negb] in Hrun.
      assert (Hrange : exists rangeMs, RANGE_MS (default "" timePeriod) = Some rangeMs).
      { revert Htp. unfold TIME_PERIODS. rewrite !elem_of_cons, elem_of_nil.
        intros [->|[->|[->|[]]]]; by eexists. }
      destruct Hrange as (rangeMs & Hrange). rewrite Hrange in Hrun. cbn [default] in Hrun.
      change (5 * 60 * 1000) with 300000 in Hrun.
      use_retention Hrun.
      split; [done|]. eexists. split; [done|]. by exists rangeMs. }
  destruct Hid as [-> (start0 & Happ & Hreq)]. split_and!; [done|done|done|].
  by exists start0.
Qed.

Lemma RANGE_MS_Some (timePeriod : string) (rangeMs : Z) :
  RANGE_MS timePeriod = Some rangeMs ->
  timePeriod ∈ TIME_PERIODS /\ timePeriod <> ""%string /\ 0 < rangeMs <= 604800000.
Proof.
  unfold RANGE_MS, TIME_PERIODS.
  destruct (String.eqb_spec timePeriod "1h") as [->|_];
    [intros [= <-]; split_and!; [set_solver|done|lia|lia]|].
  destruct (String.eqb_spec timePeriod "24h") as [->|_];
    [intros [= <-]; split_and!; [set_solver|done|lia|lia]|].
  destruct (String.eqb_spec timePeriod "7d") as [->|_];
    [intros [= <-]; split_and!; [set_solver|done|lia|lia]|].
  done.
Qed.

Lemma newDate_valid (ms : Z) : Z.abs ms <= 8640000000000000 -> newDate ms = Some ms.
Proof. intros H. unfold newDate. by destruct (Z.leb_spec (Z.abs ms) 8640000000000000); [|lia]. Qed.

(** X10. A request that gets past the checks of GET /cpu is handed on with
    an identifier that is not empty and with one of the four intervals, so
    with a period of at least 60 s; its start is not older than 455 days,
    and not older than 15 days when the interval is "1m"; and a start later
    than the one asked for always comes with the warning. *)
Theorem accepted_requests_respect_retention (nowAtPreset nowMs : Z)
    (instanceIdParam timePeriod startTimeParam endTimeParam intervalParam : option string)
    (identifier : string) (start end_ : option Z) (interval : string)
    (warning : option string) (requested : option Z) :
  prepareCpuQuery trim parseInt isoDate nowAtPreset nowMs instanceIdParam timePeriod
    startTimeParam endTimeParam intervalParam
  = Proceed identifier start end_ interval warning requested ->
  identifier <> ""%string
  /\ (exists period, PERIOD_MAP interval = Some period /\ 60 <= period)
  /\ (forall s, start = Some s -> nowMs - RETENTION_1H_MS <= s)
  /\ (interval = "1m"%string -> forall s, start = Some s -> nowMs - RETENTION_1M_MS <= s)
  /\ (forall r s, requested = Some r -> start = Some s -> r < s -> warning <> None).
Proof.
  intros (Hid & Hne & Hasked & start0 & Happ & Hreq)%prepareCpuQuery_proceeds.
  destruct (applyRetention_spec _ _ _ _ _ _ _ _ _ _ _ _ Happ)
    as (_ & Hold & Hminute & Hint & Hwarn).
  split_and!; [done| |done|done|].
  - apply INTERVALS_periods. destruct Hint as [->|[_ ->]]; [done|].
    unfold INTERVALS. set_solver.
  - intros r s -> -> Hlt ->. destruct Hreq as [-> _]. specialize (Hwarn eq_refl).
    unfold newDate in Hwarn. destruct (_ <=? _); [|done]. injection Hwarn as ->. lia.
Qed.

(** X11. A preset ("1h", "24h", "7d") gives the range that ends five
    minutes before the first reading of the clock and has the length of the
    preset; it is never clamped and never warned about, and the interval asked
    for is kept, "1m" included. *)
Theorem presets_are_taken_as_asked (nowAtPreset nowMs : Z) (raw timePeriod : string)
    (startTimeParam endTimeParam intervalParam : option string) (rangeMs : Z) :
  let asked := if truthy intervalParam then default "" intervalParam else "5m"%string in
  RETENTION_1H_MS <= nowAtPreset -> nowAtPreset <= nowMs ->
  nowMs <= nowAtPreset + 86400000 -> nowMs <= 8640000000000000 ->
  trim raw <> ""%string -> asked ∈ INTERVALS ->
  truthy startTimeParam && truthy endTimeParam = false ->
  RANGE_MS timePeriod = Some rangeMs ->
  prepareCpuQuery trim parseInt isoDate nowAtPreset nowMs (Some raw) (Some timePeriod)
    startTimeParam endTimeParam intervalParam
  = Proceed (trim raw) (Some (nowAtPreset - 300000 - rangeMs)) (Some (nowAtPreset - 300000))
      asked None None.
Proof.
  intros asked Hepoch Hclock Hday Hmax Hne Hasked Hcustom Hrange.
  apply RANGE_MS_Some in Hrange as Htp. destruct Htp as (Htp & Htpne & Hlen).
  unfold prepareCpuQuery. cbv zeta. fold asked. cbn [fmap option_fmap option_map].
  change (default ""%string (Some timePeriod)) with timePeriod.
  rewrite Hrange, (bool_decide_eq_true_2 _ Htp), (bool_decide_eq_true_2 _ Hasked), Hcustom.
  destruct (String.eqb_spec (trim raw) ""); [done|]. cbn [negb truthy default].
  destruct (String.eqb_spec timePeriod ""); [done|]. cbn [negb].
  change (5 * 60 * 1000) with 300000. unfold RETENTION_1H_MS in Hepoch.
  rewrite (newDate_valid (nowAtPreset - 300000)) by lia. cbn [mbind option_bind].
  unfold id.
  rewrite (newDate_valid (nowAtPreset - 300000 - rangeMs)) by lia.
  unfold applyRetention, timeBefore, RETENTION_1H_MS, RETENTION_1M_MS.
  destruct (Z.ltb_spec (nowAtPreset - 300000 - rangeMs) (nowMs - 455 * 24 * 60 * 60 * 1000));
    [lia|].
  by destruct (Z.ltb_spec (nowAtPreset - 300000 - rangeMs) (nowMs - 15 * 24 * 60 * 60 * 1000));
    [lia|].
Qed.


End CpuRouteFacts.

(** ** A range that is empty or inverted *)

Section InvertedRange.
Context {Val Src : Type}.
Variable send :
  GetMetricDataCommand -> Src -> (JsError + GetMetricDataOutput Val) * Src.
Variable settledAt : Chunk -> nat.
Variable formatTime : Z -> string.

Lemma fetchMetricsWithPeriod_unsplit (fuel : nat) (instanceId : string)
    (start end_ period : Z) (w : World Src) :
  0 < period -> end_ <= start ->
  exists (k : nat) trace,
    history (fetchMetricsWithPeriod send settledAt fuel instanceId start end_ period
               (end_ - start) w).2 = history w ++ trace
    /\ sentCommands trace = replicate (S k) (mkCommand instanceId start end_ period).
Proof.
  intros Hp Hle. unfold fetchMetricsWithPeriod.
  assert (Hone : calculateQueryChunks (end_ - start) period = 1).
  { apply calculateQueryChunks_one; [done|]. apply estimatedDatapoints_le; [done|].
    unfold MAX_DATAPOINTS. lia. }
  rewrite Hone. cbn [Z.eqb Pos.eqb]. unfold mbind, M_bind.
  destruct (fetchChunkWithRetry_trace send instanceId start end_ period w)
    as (k & trace & _ & Hhist & Hsent & _).
  exists k, trace. split; [|done].
  by destruct (fetchChunkWithRetry send instanceId start end_ period w) as [[r|e|] w1].
Qed.

(** X13. A query whose end is not after its start is not refused and not
    split: the provider is called, and every call asks for the window as
    given, from [start] to [end]. *)
Theorem inverted_range_is_sent_as_given (fuel : nat) (instanceId : string)
    (start end_ : Z) (interval : string) (w : World Src) :
  end_ <= start ->
  exists trace,
    history (getCpuMetrics send settledAt formatTime fuel instanceId start end_ interval w).2
    = history w ++ trace
    /\ sentCommands trace <> []
    /\ Forall (fun command => StartTime command = start /\ EndTime command = end_)
         (sentCommands trace).
Proof.
  intros Hle. pose proof (PERIOD_MAP_positive interval) as Hperiod.
  rewrite getCpuMetrics_run. cbv zeta.
  destruct (fetchMetricsWithPeriod_unsplit fuel instanceId start end_
              (default 300 (PERIOD_MAP interval)) w) as (k1 & tr1 & Hhist1 & Hsent1); [lia|done|].
  assert (Hall1 : Forall (fun command => StartTime command = start /\ EndTime command = end_)
                    (sentCommands tr1)) by (rewrite Hsent1; by apply Forall_replicate).
  destruct (fetchMetricsWithPeriod send settledAt fuel instanceId start end_ _ (end_ - start) w)
    as [[rs|e|] w1]; cbn [fst snd] in *.
  2, 3: exists tr1; split_and!; [done|by rewrite Hsent1|done].
  destruct (emptyFallbackFires rs _).
  - destruct (fetchMetricsWithPeriod_unsplit fuel instanceId start end_ 300 w1)
      as (k2 & tr2 & Hhist2 & Hsent2); [lia|done|].
    exists (tr1 ++ tr2). rewrite sentCommands_app, app_assoc, <- Hhist1. split_and!.
    + by destruct (fetchMetricsWithPeriod send settledAt fuel instanceId start end_ 300
                     (end_ - start) w1) as [[rs2|e|] w2].
    + by rewrite Hsent1.
    + apply Forall_app. split; [done|]. rewrite Hsent2. by apply Forall_replicate.
  - exists tr1. split_and!; [done|by rewrite Hsent1|done].
Qed.

End InvertedRange.

(** ** The throttling test *)

Lemma append_nil_l (s : string) : ("" +:+ s = s)%string.
Proof. reflexivity. Qed.

Lemma append_cons (c : Ascii.ascii) (s t : string) :
  (String c s +:+ t = String c (s +:+ t))%string.
Proof. reflexivity. Qed.

Lemma append_nil_r (s : string) : (s +:+ "" = s)%string.
Proof. induction s as [|c s IH]; [done|]. by rewrite append_cons, IH. Qed.

Lemma app_assoc_string (a b c : string) : ((a +:+ b) +:+ c = a +:+ (b +:+ c))%string.
Proof. induction a as [|x a IH]; [done|]. by rewrite !append_cons, IH. Qed.

Lemma prefix_app (needle post : string) : String.prefix needle (needle +:+ post) = true.
Proof.
  induction needle as [|c needle IH]; [by destruct post|].
  rewrite append_cons. cbn [String.prefix]. by destruct (Ascii.ascii_dec c c).
Qed.

Lemma includes_prefix (haystack needle : string) :
  String.prefix needle haystack = true -> includes haystack needle = true.
Proof. intros H. destruct haystack; cbn [includes]; by rewrite H. Qed.

Lemma includes_app (pre needle post : string) :
  includes (pre +:+ needle +:+ post) needle = true.
Proof.
  induction pre as [|c pre IH].
  - rewrite append_nil_l. apply includes_prefix, prefix_app.
  - rewrite append_cons. cbn [includes]. rewrite IH. apply orb_true_r.
Qed.

Lemma String_of_message (error : JsError) :
  exists pre, String_of error = (pre +:+ err_message error)%string.
Proof.
  unfold String_of. destruct (String.eqb_spec (err_name error) ""); [by exists ""%string|].
  destruct (String.eqb_spec (err_message error) "") as [->|_].
  - exists (err_name error). by rewrite append_nil_r.
  - exists (err_name error +:+ ": ")%string. by rewrite app_assoc_string.
Qed.

(** X14. The throttling test looks for its words anywhere in the text of the
    error: an error whose message contains "rate" or "throttl", whatever
    else it says and whatever its name and status, is retried as a
    rate-limit error. *)
Theorem any_message_with_rate_is_throttling (error : JsError) (pre post : string) :
  err_message error = (pre +:+ "rate" +:+ post)%string
  \/ err_message error = (pre +:+ "throttl" +:+ post)%string ->
  isThrottling error = true.
Proof.
  destruct (String_of_message error) as (before & Htext).
  unfold isThrottling. intros [Hmsg|Hmsg]; rewrite Htext, Hmsg, <- app_assoc_string.
  - rewrite (includes_app (before +:+ pre) "rate" post). by rewrite !orb_true_r.
  - rewrite (includes_app (before +:+ pre) "throttl" post). by rewrite !orb_true_r.
Qed.

(** ** Examples *)


(** The same two samples in one result or in two, in either order. *)
Lemma points_do_not_depend_on_sample_order_two_results :
  let rs1 := [mkResult (Some [Some 0; Some 60000]) (Some [Some 1%Q; Some 2%Q])] in
  let rs2 := [mkResult (Some [Some 60000]) (Some [Some 2%Q]);
              mkResult (Some [Some 0]) (Some [Some 1%Q])] in
  uniquePoints 0 3600000 rs1 = uniquePoints 0 3600000 rs2.
Proof.
  intros rs1 rs2. apply points_do_not_depend_on_sample_order.
  - assert (H1 : collect 0 3600000 rs1 = [mkPoint 0 1%Q; mkPoint 60000 2%Q]) by (by vm_compute).
    assert (H2 : collect 0 3600000 rs2 = [mkPoint 60000 2%Q; mkPoint 0 1%Q]) by (by vm_compute).
    rewrite H1, H2. apply perm_swap.
  - assert (H1 : secondOf <$> collect 0 3600000 rs1 = [0; 60000]) by (by vm_compute).
    rewrite H1. apply NoDup_cons. split; [|apply NoDup_singleton].
    intros Hin%list_elem_of_singleton. lia.
Defined.

(** The sample at 1000 ms is dropped for the one at 1400 ms, which stands
    for its second. *)
Lemma every_kept_sample_has_a_point_dropped :
  let rs := [mkResult (Some [Some 1400; Some 1000]) (Some [Some 5%Q; Some 7%Q])] in
  uniquePoints 0 60000 rs = [mkPoint 1400 5%Q]
  /\ exists p, p ∈ uniquePoints 0 60000 rs
       /\ secondOf p = secondOf (mkPoint 1000 7%Q)
       /\ Z.abs (dp_timestamp p - dp_timestamp (mkPoint 1000 7%Q)) < 1000.
Proof.
  intros rs. split; [by vm_compute|].
  apply every_kept_sample_has_a_point.
  assert (H : collect 0 60000 rs = [mkPoint 1400 5%Q; mkPoint 1000 7%Q]) by (by vm_compute).
  rewrite H. apply list_elem_of_further, list_elem_of_here.
Defined.

(** A "1m" request from 2020 on, on 2 November 2026: clamped to 4 August
    2025, with the warning, at "1h". *)
Lemma accepted_requests_respect_retention_from_2020 :
  let start := Some 1754308800000 in
  let warning := Some "Requested date was too old. Showing data from 2025-08-04 instead."%string in
  prepareCpuQuery asciiTrim decimalParseInt isoDay 1793620800000 1793620800000
    (Some " i-0abc ") None (Some "1577836800000") (Some "1790812800000") (Some "1m")
  = Proceed "i-0abc" start (Some 1790812800000) "1h" warning (Some 1577836800000)
  /\ "i-0abc"%string <> ""%string
  /\ (exists period, PERIOD_MAP "1h" = Some period /\ 60 <= period)
  /\ (forall s, start = Some s -> 1793620800000 - RETENTION_1H_MS <= s)
  /\ ("1h"%string = "1m"%string ->
      forall s, start = Some s -> 1793620800000 - RETENTION_1M_MS <= s)
  /\ (forall r s, Some 1577836800000 = Some r -> start = Some s -> r < s -> warning <> None).
Proof.
  intros start warning. split; [by vm_compute|].
  apply (accepted_requests_respect_retention asciiTrim decimalParseInt isoDay
           1793620800000 1793620800000
           (Some " i-0abc "%string) None (Some "1577836800000"%string)
           (Some "1790812800000"%string) (Some "1m"%string)
           "i-0abc" start (Some 1790812800000) "1h" warning (Some 1577836800000)).
  by vm_compute.
Defined.

(** The last 24 hours at "1m", the clock read twice 40 ms apart. *)
Lemma presets_are_taken_as_asked_24h :
  prepareCpuQuery asciiTrim decimalParseInt isoDay 1793620800000 1793620800040
    (Some "10.0.0.5") (Some "24h") None None (Some "1m")
  = Proceed "10.0.0.5" (Some (1793620800000 - 300000 - 86400000))
      (Some (1793620800000 - 300000)) "1m" None None.
Proof.
  apply (presets_are_taken_as_asked asciiTrim decimalParseInt isoDay
           1793620800000 1793620800040 "10.0.0.5" "24h" None None (Some "1m"%string) 86400000).
  - unfold RETENTION_1H_MS. lia.
  - lia.
  - lia.
  - lia.
  - by vm_compute.
  - by apply (bool_decide_unpack _); vm_compute.
  - done.
  - done.
Defined.


(** A range given backwards: one call, for the window as given. *)
Lemma inverted_range_is_sent_as_given_backwards :
  exists trace,
    history (getCpuMetrics scripted noSettleOrder noLabel 0 "i-xxx" 60000 0 "5m"
               (mkWorld [] [])).2 = [] ++ trace
    /\ sentCommands trace <> []
    /\ Forall (fun command => StartTime command = 60000 /\ EndTime command = 0)
         (sentCommands trace).
Proof.
  apply (inverted_range_is_sent_as_given scripted noSettleOrder noLabel 0 "i-xxx" 60000 0 "5m"
           (mkWorld [] [])).
  lia.
Defined.

(** An error that is no rate-limit error and has "rate" in a word of its
    message. *)
Lemma any_message_with_rate_is_throttling_generate :
  isThrottling (mkError "ValidationError" "Cannot generate the metric" None) = true.
Proof.
  apply (any_message_with_rate_is_throttling
           (mkError "ValidationError" "Cannot generate the metric" None)
           "Cannot gene" " the metric").
  by left.
Defined.
